(** * GDB pretty-printers for CSD: a shallow embedding of [csd.py]

    The printers of [src/utils/gdb-printers/csd.py] are Python code running
    inside GDB.  They read the debuggee through three services of the host:
    type metadata ([gdb.Type]), values and target memory ([gdb.Value]) and
    the symbol table ([gdb.lookup_symbol]).  This file models those services
    as plain data, embeds every function of the core on top of them and
    proves the properties the specification states about them.

    Python exceptions are results of a small state-and-error monad; the
    state carries the trace of the requests made to the debuggee, so that
    statements about which symbol is looked up, or in which order accessors
    are called, are statements about that trace. *)

From Stdlib Require Import ZArith String Ascii List DecimalString.
From stdpp Require Import base gmap strings list.

Set Warnings "-register-all".

Open Scope string_scope.
Open Scope Z_scope.

(** ** Python exceptions and the two monads *)

Inductive PyExc : Type :=
| AttributeError          (* attribute access on [None] *)
| TypeError               (* e.g. [re.match] on [None], [int(None)] *)
| IndexError              (* list subscript out of range *)
| AssertionError (msg : string)
| Exception (msg : string)
| GdbError                (* [gdb.error]: no such member, a failed call or conversion, ... *)
| RuntimeError            (* GDB's own [RuntimeError]: no such template argument,
                             a value that is not callable *)
| MemoryError (addr : Z)  (* [gdb.MemoryError]: the address cannot be read *)
| StopIteration.

(** [Res A]: a computation that touches nothing: it returns or raises. *)
Abbreviation Res := (sum PyExc).

#[global] Instance Res_ret : MRet Res := λ A a, inr a.
#[global] Instance Res_bind : MBind Res :=
  λ A B k m, match m with inr a => k a | inl e => inl e end.

Definition throw {A} (e : PyExc) : Res A := inl e.

Definition from_option {A} (e : PyExc) (o : option A) : Res A :=
  match o with Some a => inr a | None => inl e end.

(** [M S A]: a computation over a state [S] that returns an [A] or raises;
    the state reached is kept in both cases. *)
Definition M (S A : Type) : Type := S → Res A * S.

#[global] Instance M_ret {S} : MRet (M S) := λ A a s, (inr a, s).
#[global] Instance M_bind {S} : MBind (M S) :=
  λ A B k m s, match m s with
               | (inr a, s') => k a s'
               | (inl e, s') => (inl e, s')
               end.

(** A pure computation inside a stateful one. *)
Definition lift {S A} (r : Res A) : M S A := λ s, (r, s).

Definition raise {S A} (e : PyExc) : M S A := lift (throw e).

(** Run a computation over the second component of a pair state. *)
Definition on_snd {S T A} (m : M T A) : M (S * T) A :=
  λ st, match m (snd st) with (r, t') => (r, (fst st, t')) end.

(** ** Python strings *)

(** [s.startswith(p)] *)
Definition startswith (s p : string) : bool := String.prefix p s.

(** [s[n:]] *)
Fixpoint slice_from (n : nat) (s : string) : string :=
  match n, s with
  | O, _ => s
  | S n', String _ r => slice_from n' r
  | S _, EmptyString => EmptyString
  end.

(** [s.endswith(p)] *)
Definition endswith (s p : string) : bool :=
  (String.length p <=? String.length s)%nat &&
  String.eqb (slice_from (String.length s - String.length p) s) p.

(** [str(n)] for a Python integer. *)
Definition str_int (n : Z) : string := NilZero.string_of_int (Z.to_int n).

(** [a or b] where [a] is a string or [None]: both [None] and the empty
    string are falsy. *)
Definition or_else (a : option string) (b : string) : string :=
  match a with
  | Some (String c r) => String c r
  | _ => b
  end.

(** The longest prefix without ['<']: what the group of the pattern
    [^([^<]+)] captures when it captures anything. *)
Fixpoint span_not_lt (s : string) : string :=
  match s with
  | EmptyString => EmptyString
  | String c r => if Ascii.eqb c "<" then EmptyString else String c (span_not_lt r)
  end.

(** [re.match('^([^<]+)', s)]: the match object (here its group 1), or
    [None] when not even one character can be taken. *)
Definition re_match_prefix (s : string) : option string :=
  match span_not_lt s with
  | EmptyString => None
  | g => Some g
  end.

(** ** gdb.Type *)

Inductive TypeCode : Type :=
| TYPE_CODE_STRUCT | TYPE_CODE_UNION | TYPE_CODE_INT | TYPE_CODE_PTR
| TYPE_CODE_REF | TYPE_CODE_TYPEDEF | TYPE_CODE_FUNC | TYPE_CODE_ENUM.

Definition TypeCode_eqb (a b : TypeCode) : bool :=
  match a, b with
  | TYPE_CODE_STRUCT, TYPE_CODE_STRUCT | TYPE_CODE_UNION, TYPE_CODE_UNION
  | TYPE_CODE_INT, TYPE_CODE_INT | TYPE_CODE_PTR, TYPE_CODE_PTR
  | TYPE_CODE_REF, TYPE_CODE_REF | TYPE_CODE_TYPEDEF, TYPE_CODE_TYPEDEF
  | TYPE_CODE_FUNC, TYPE_CODE_FUNC | TYPE_CODE_ENUM, TYPE_CODE_ENUM => true
  | _, _ => false
  end.

(** A template argument is a type, or (non-type template parameter) an
    integral constant: a [gdb.Value], of which the printers use the type and
    the text [str()] gives.  That text is GDB's rendering of the value and is
    carried as GDB gives it: the decimal text for the integer types that are
    not character types, but [65 'A'] for a [char]. *)
Inductive TemplateArg (T : Type) : Type :=
| TArgType (t : T)
| TArgValue (ty : T) (n : Z) (text : string).
Arguments TArgType {T} t.
Arguments TArgValue {T} ty n text.

(** What the printers read of a [gdb.Type]: [code], [name], [tag], its
    printed form [str(ty)], its template arguments, its fields and, for
    typedefs, pointers and references, the type it stands for. *)
Inductive gdbType : Type :=
  mkType {
    code : TypeCode;
    name : option string;
    tag : option string;
    type_str : string;
    template_arguments : list (TemplateArg gdbType);
    fields : list (string * gdbType);
    target : option gdbType
  }.

(** [ty.strip_typedefs()] *)
Fixpoint strip_typedefs (ty : gdbType) : gdbType :=
  match code ty, target ty with
  | TYPE_CODE_TYPEDEF, Some t => strip_typedefs t
  | _, _ => ty
  end.

(** [ty.name or ty.tag or str(ty)] *)
Definition name_or_tag_or_str (ty : gdbType) : string :=
  or_else (name ty) (or_else (tag ty) (type_str ty)).

(** [ty.pointer()] *)
Definition pointer (ty : gdbType) : gdbType :=
  {| code := TYPE_CODE_PTR; name := None; tag := None;
     type_str := type_str ty ++ " *";
     template_arguments := []; fields := []; target := Some ty |}.

(** [ty.template_argument(n)]: GDB resolves typedefs first and raises its
    [RuntimeError] when there is no such argument. *)
Definition template_argument (ty : gdbType) (n : nat) : Res (TemplateArg gdbType) :=
  from_option RuntimeError (template_arguments (strip_typedefs ty) !! n).

(** [ty.fields()]: GDB resolves typedefs and refuses types without fields. *)
Definition fields_of (ty : gdbType) : Res (list (string * gdbType)) :=
  let ty := strip_typedefs ty in
  match code ty with
  | TYPE_CODE_STRUCT | TYPE_CODE_UNION | TYPE_CODE_ENUM | TYPE_CODE_FUNC =>
      mret (fields ty)
  | _ => throw TypeError
  end.

(** [str(x)] of what [template_argument] returns: the printed type, or
    GDB's rendering of the constant. *)
Definition str_targ (a : TemplateArg gdbType) : string :=
  match a with
  | TArgType t => type_str t
  | TArgValue _ _ text => text
  end.

(** ** _remove_generics *)

(** The argument of [_remove_generics] is dynamically typed: the callers
    pass a string, a [gdb.Type], or [None] (the name of an unnamed type). *)
Inductive TypenameArg : Type :=
| ArgStr (s : string)
| ArgType (ty : gdbType)
| ArgNone.

Definition of_name (o : option string) : TypenameArg :=
  match o with Some s => ArgStr s | None => ArgNone end.

Definition _remove_generics (typename : TypenameArg) : Res string :=
  typename ← match typename with
             | ArgType ty => mret (name_or_tag_or_str ty)
             | ArgStr s => mret s
             | ArgNone => throw TypeError      (* re.match on None *)
             end;
  match re_match_prefix typename with
  | Some g => mret g
  | None => throw AttributeError   (* match is None: no attribute 'group' *)
  end.

(** ** _nttpIntegralSuffix and _get_entry_extractor_typename *)

Definition _nttpIntegralSuffix : gmap string string :=
  list_to_map [
    ("long", "l");
    ("long long", "ll");
    ("unsigned int", "u");
    ("unsigned long", "ul");
    ("unsigned long long", "ull")
  ].

(** [d.get(k, None)] where the key itself may be [None] (never a key). *)
Definition dict_get {V} (d : gmap string V) (k : option string) : option V :=
  match k with
  | Some s => d !! s
  | None => None
  end.

(** Lines 41-42: the text of the offset argument as the symbol spells it.
    [offsetTypeName] is [offset.type.name], [offset] is [str(offset)]. *)
Definition fixedOffset (offsetTypeName : option string) (offset : string) : string :=
  let suffix := dict_get _nttpIntegralSuffix offsetTypeName in
  match suffix with
  | Some (String c r) => offset ++ String c r   (* f'{offset}{suffix}' *)
  | _ => offset                                 (* str(offset) *)
  end.

Definition _get_entry_extractor_typename (ty : gdbType) : Res string :=
  templateName ← _remove_generics (of_name (name (strip_typedefs ty)));
  if negb (String.eqb templateName "csg::offset_extractor") then
    from_option TypeError (name (strip_typedefs ty))
  else
    offset ← template_argument ty 2;
    match offset with
    | TArgType _ =>
        throw (AssertionError "offset_extractor template arg 2 not an NTTP?")
    | TArgValue oty _ _ =>
        a0 ← template_argument ty 0;
        a1 ← template_argument ty 1;
        mret ("csg::offset_extractor<" ++ str_targ a0 ++ ", "
                ++ str_targ a1 ++ ", " ++ fixedOffset (name oty) (str_targ offset)
                ++ ">")
    end.

(** ** gdb.Value and the debuggee *)

(** A value is an integer, a pointer or reference (its address payload),
    a struct or union with its members, or a function of the debuggee.
    [addr] is where the value lives in target memory, when it is an lvalue. *)
Inductive Value : Type :=
| VInt (ty : gdbType) (addr : option Z) (n : Z)
| VPtr (ty : gdbType) (addr : option Z) (a : Z)
| VStruct (ty : gdbType) (addr : option Z) (members : list (string * Value))
| VFunc (ty : gdbType) (symbol : string).

(** [v.type] *)
Definition type_of (v : Value) : gdbType :=
  match v with
  | VInt ty _ _ | VPtr ty _ _ | VStruct ty _ _ | VFunc ty _ => ty
  end.

(** Member lookup in a struct: the first member of that name. *)
Fixpoint find_member (f : string) (ms : list (string * Value)) : option Value :=
  match ms with
  | [] => None
  | (k, v) :: r => if String.eqb k f then Some v else find_member f r
  end.

(** [v[f]] on a struct or union value; [gdb.error] when there is no such
    member or the value has no members. *)
Definition getitem (v : Value) (f : string) : Res Value :=
  match v with
  | VStruct _ _ ms => from_option GdbError (find_member f ms)
  | _ => throw GdbError
  end.

(** [int(v)] *)
Definition int_of (v : Value) : Res Z :=
  match v with
  | VInt _ _ n => mret n
  | VPtr _ _ a => mret a
  | _ => throw GdbError
  end.

(** [v.address]: a pointer to the value, or [None] when it is not an lvalue. *)
Definition address (v : Value) : option Value :=
  match v with
  | VInt ty (Some a) _ | VPtr ty (Some a) _ | VStruct ty (Some a) _ =>
      Some (VPtr (pointer ty) None a)
  | _ => None
  end.

(** [int(v.address)]: [int(None)] is a [TypeError]. *)
Definition int_of_address (v : Value) : Res Z :=
  match address v with
  | Some p => int_of p
  | None => throw TypeError
  end.

(** [v - k] on an integer value. *)
Definition value_sub (v : Value) (k : Z) : Res Value :=
  match v with
  | VInt ty _ n => mret (VInt ty None (n - k))
  | VPtr ty _ a => mret (VPtr ty None (a - k))
  | _ => throw GdbError
  end.

(** [v.cast(ptrType)] of an integer or pointer to a pointer type. *)
Definition cast (v : Value) (ty : gdbType) : Res Value :=
  match v with
  | VInt _ _ n => mret (VPtr ty None n)
  | VPtr _ _ a => mret (VPtr ty None a)
  | _ => throw GdbError
  end.

(** [gdb.Symbol]: the printers read [is_function] and take [value()]. *)
Record Symbol : Type := mkSymbol {
  symbol_name : string;
  is_function : bool;
  symbol_type : gdbType
}.

(** [sym.value()] *)
Definition symbol_value (sym : Symbol) : Value :=
  VFunc (symbol_type sym) (symbol_name sym).

(** The debuggee as GDB presents it: what object is found at an address
    ([None]: unmapped), what the symbol table holds under a name, and what a
    call of one of its functions returns ([None]: the call fails). *)
Record Inferior : Type := mkInferior {
  memory : Z → option Value;
  symtab : string → option Symbol;
  call_function : string → list Value → option Value
}.

(** The requests made to the debuggee, in the order they are made. *)
Inductive Event : Type :=
| EvLookupSymbol (symName : string)
| EvReadMemory (addr : Z)
| EvCall (symbol : string) (args : list Value).

Abbreviation Trace := (list Event).

Definition emit (e : Event) : M Trace unit := λ t, (inr tt, (t ++ [e])%list).

Section Debuggee.

Variable inf : Inferior.

(** Read the object a pointer or reference designates.  GDB's values are
    lazy: the printers' [referenced_value()] and [dereference()] only
    designate the object, and GDB fetches it (and raises [gdb.MemoryError]
    when it cannot) once its contents are used.  Here the fetch is made, and
    recorded, at the designation; where the object is readable the values
    obtained are the same.  The statements below do not depend on when the
    fetch is made: none of them places a read, or a [MemoryError], at a
    particular step of the code. *)
Definition read_target (a : Z) : M Trace Value :=
  emit (EvReadMemory a);;
  lift (from_option (MemoryError a) (memory inf a)).

(** [v.referenced_value()]: defined on pointers and references. *)
Definition referenced_value (v : Value) : M Trace Value :=
  match v with
  | VPtr _ _ a => read_target a
  | _ => raise GdbError
  end.

(** [v.dereference()]: defined on pointers; a reference is resolved first. *)
Definition dereference (v : Value) : M Trace Value :=
  match v with
  | VPtr ty _ a =>
      if TypeCode_eqb (code (strip_typedefs ty)) TYPE_CODE_REF then
        r ← read_target a;
        match r with
        | VPtr _ _ a' => read_target a'
        | _ => raise GdbError
        end
      else read_target a
  | _ => raise GdbError
  end.

(** [gdb.lookup_symbol(symName)[0]] *)
Definition lookup_symbol (symName : string) : M Trace (option Symbol) :=
  emit (EvLookupSymbol symName);;
  mret (symtab inf symName).

(** [fn(args...)]: an inferior call through a function value; a failed call
    is a [gdb.error], a value that is no function GDB's [RuntimeError]. *)
Definition call (fn : Value) (args : list Value) : M Trace Value :=
  match fn with
  | VFunc _ s =>
      emit (EvCall s args);;
      lift (from_option GdbError (call_function inf s args))
  | _ => raise RuntimeError
  end.

End Debuggee.

(** ** _lookup_entry_ref_codec_functions *)

Definition missing_symbol (symName : string) : PyExc :=
  Exception ("required symbol " ++ symName ++ " does not exist or is not a function").

Section CodecResolver.

Variable inf : Inferior.

Definition lookupEntryRefCodecSymbol (entryRefCodecClassName fnName : string)
    : M Trace Symbol :=
  let symName := entryRefCodecClassName ++ "::" ++ fnName in
  sym ← lookup_symbol inf symName;
  match sym with
  | Some sym => if is_function sym then mret sym else raise (missing_symbol symName)
  | None => raise (missing_symbol symName)
  end.

Definition _lookup_entry_ref_codec_functions
    (elementTy entryTy : TemplateArg gdbType) (entryExTy entryRefUnionTy : gdbType)
    : M Trace (Value * Value) :=
  entryExTyName ← lift (_get_entry_extractor_typename entryExTy);
  let entryRefCodecClassName :=
    "csg::detail::entry_ref_codec<" ++ str_targ entryTy ++ ", "
      ++ str_targ elementTy ++ ", " ++ entryExTyName ++ ">" in
  let getEntryFnName :=
    "get_entry(" ++ entryExTyName ++ " &, " ++ type_str entryRefUnionTy ++ ")" in
  getEntrySym ← lookupEntryRefCodecSymbol entryRefCodecClassName getEntryFnName;
  let getValueFnName := "get_value(" ++ type_str entryRefUnionTy ++ ")" in
  getValueSym ← lookupEntryRefCodecSymbol entryRefCodecClassName getValueFnName;
  mret (symbol_value getEntrySym, symbol_value getValueSym).

End CodecResolver.

(** ** EntryRefPrinter *)

Module EntryRefPrinter.

Record t : Type := mk {
  value : Value;
  addrVal : Value;
  childValue : Value;
  label : string
}.

(** [targ.pointer()]: only a type has the method. *)
Definition pointer_of (a : TemplateArg gdbType) : Res gdbType :=
  match a with
  | TArgType ty => mret (pointer ty)
  | TArgValue _ _ _ => throw AttributeError
  end.

Definition __init__ (value : Value) : Res t :=
  offset ← getitem value "offset";
  addrVal ← getitem offset "m_address";
  a ← int_of addrVal;
  if negb (Z.land a 1 =? 0) then
    (* A tagged address: pointing at a T value. *)
    targ ← template_argument (type_of value) 1;
    ptrType ← pointer_of targ;
    untagged ← value_sub addrVal 1;
    childValue ← cast untagged ptrType;
    mret (mk value addrVal childValue (type_str ptrType))
  else
    (* An untagged address: pointing directly at an entry. *)
    targ ← template_argument (type_of value) 0;
    ptrType ← pointer_of targ;
    childValue ← cast addrVal ptrType;
    mret (mk value addrVal childValue (type_str ptrType)).

(** The generator yields once. *)
Definition children (self : t) : list (string * Value) :=
  [(label self, childValue self)].

End EntryRefPrinter.

(** ** ListPrinter *)

Module ListPrinter.

Module ListIterator.

Record t : Type := mk {
  nextEntryRef : Value;
  entryEx : Value;
  getEntryFn : Value;
  getValueFn : Value;
  count : Z;
  stopEntryRefValue : Z
}.

Definition __init__ (nextEntryRef entryEx getEntryFn getValueFn : Value)
    (stopEntryRefValue : Z) : t :=
  mk nextEntryRef entryEx getEntryFn getValueFn 0 stopEntryRefValue.

Definition set_count (self : t) (c : Z) : t :=
  mk (nextEntryRef self) (entryEx self) (getEntryFn self) (getValueFn self) c
     (stopEntryRefValue self).

Definition set_nextEntryRef (self : t) (r : Value) : t :=
  mk r (entryEx self) (getEntryFn self) (getValueFn self) (count self)
     (stopEntryRefValue self).

(** [int(ref['offset']['m_address'])] *)
Definition ref_address (ref : Value) : Res Z :=
  offset ← getitem ref "offset";
  a ← getitem offset "m_address";
  int_of a.

Definition isFinished (self : t) : Res bool :=
  a ← ref_address (nextEntryRef self);
  mret (a =? stopEntryRefValue self).

(** The iterator object is mutated in place: the state of [__next__] is the
    object together with the trace. *)
Definition self_get : M (t * Trace) t := λ s, (inr (fst s), s).
Definition self_update (f : t → t) : M (t * Trace) unit :=
  λ s, (inr tt, (f (fst s), snd s)).

Section WithInferior.

Variable inf : Inferior.

Definition __next__ : M (t * Trace) (string * Value) :=
  self_update (λ self, set_count self (count self + 1));;
  self ← self_get;
  finished ← lift (isFinished self);
  if (finished : bool) then raise StopIteration
  else
    p ← on_snd (call inf (getValueFn self) [nextEntryRef self]);
    item ← on_snd (referenced_value inf p);
    q ← on_snd (call inf (getEntryFn self) [entryEx self; nextEntryRef self]);
    curEntry ← on_snd (dereference inf q);
    next ← lift (getitem curEntry "next");
    self_update (λ self, set_nextEntryRef self next);;
    self ← self_get;
    mret ("[" ++ str_int (count self) ++ "]", item).

(** [list(it)], bounded: pull until [StopIteration].  [None] when [fuel]
    pulls did not reach the end; another exception ends the pull and is
    returned together with the items produced before it. *)
Fixpoint pull_all (fuel : nat) (s : t * Trace)
    : option (list (string * Value) * option PyExc * (t * Trace)) :=
  match fuel with
  | O => None
  | S fuel' =>
      match __next__ s with
      | (inr item, s') =>
          match pull_all fuel' s' with
          | Some (items, e, s'') => Some (item :: items, e, s'')
          | None => None
          end
      | (inl StopIteration, s') => Some ([], None, s')
      | (inl e, s') => Some ([], Some e, s')
      end
  end.

End WithInferior.

End ListIterator.

Record t : Type := mk {
  value : Value;
  entryEx : Value;
  listTyName : string;
  isProxy : bool;
  isTailQ : bool;
  fwdHead : Value;
  elementTy : TemplateArg gdbType;
  entryTy : TemplateArg gdbType;
  entryExTy : gdbType;
  iterator : ListIterator.t
}.

Section WithInferior.

Variable inf : Inferior.

Definition __init__ (value : Value) : M Trace t :=
  entryEx ← lift (getitem value "m_entryExtractor");
  qualListTyName ← lift (_remove_generics (ArgType (strip_typedefs (type_of value))));
  if negb (startswith qualListTyName "csg::") then raise (AssertionError "")
  else
    let listTyName := slice_from 5 qualListTyName in
    let isProxy := endswith listTyName "_proxy" in
    let isTailQ := startswith listTyName "tailq_" in
    fwdHead ← lift (getitem value "m_head");
    fwdHead ← (if isProxy then referenced_value inf fwdHead else mret fwdHead);
    listHeadEntry ←
      lift (getitem fwdHead (if isTailQ then "m_endEntry" else "m_headEntry"));
    stopEntryRefValue ←
      lift (if isTailQ then int_of_address listHeadEntry else mret 0);
    firstEntryRef ← lift (getitem listHeadEntry "next");
    flds ← lift (fields_of (type_of value));
    baseCls ← lift (from_option IndexError (snd <$> flds !! 0%nat));
    let entryRefUnionTy := type_of firstEntryRef in
    elementTy ← lift (template_argument baseCls 0);
    entryTy ← lift (template_argument entryRefUnionTy 0);
    let entryExTy := strip_typedefs (type_of entryEx) in
    fns ← _lookup_entry_ref_codec_functions inf elementTy entryTy entryExTy
            entryRefUnionTy;
    mret (mk value entryEx listTyName isProxy isTailQ fwdHead elementTy entryTy
             entryExTy
             (ListIterator.__init__ firstEntryRef entryEx (fst fns) (snd fns)
                stopEntryRefValue)).

End WithInferior.

Definition children (self : t) : ListIterator.t := iterator self.

Definition display_hint (self : t) : string := "array".

Section Summary.

(** [str(v)]: GDB's own rendering of a value (of the size member, of the
    extractor object). *)
Variable format_value : Value → string.

(** [self.iterator] is the object [children] hands out: the summary reads
    the iterator in the state the pulls have left it in. *)
Definition to_string (self : t) : Res string :=
  let desc := "csg::" ++ listTyName self ++ " of " ++ str_targ (elementTy self) in
  size ← getitem (fwdHead self) "m_sz";
  desc ← (if TypeCode_eqb (code (type_of size)) TYPE_CODE_INT then
            mret (desc ++ ", size = " ++ format_value size)
          else
            finished ← ListIterator.isFinished (iterator self);
            mret (if (finished : bool) then desc ++ " (empty)" else desc));
  flds ← fields_of (type_of (entryEx self));
  match flds with
  | [] => mret desc
  | _ :: _ =>
      let entryExTyName := strip_typedefs (type_of (entryEx self)) in
      mret (desc ++ ", extractor " ++ type_str entryExTyName ++ " = "
              ++ format_value (entryEx self))
  end.

End Summary.

End ListPrinter.

(** ** CSDPrettyPrinter *)

Module CSDPrettyPrinter.

(** The two printer classes the table refers to. *)
Inductive PrinterClass : Type := ListPrinterCls | EntryRefPrinterCls.

(** A constructed printer. *)
Inductive Printer : Type :=
| AListPrinter (p : ListPrinter.t)
| AnEntryRefPrinter (p : EntryRefPrinter.t).

Record t : Type := mk {
  name : string;
  enabled : bool;
  lookup : gmap string PrinterClass
}.

Definition __init__ (name : string) : t :=
  mk name true
     (list_to_map [
        ("slist_head", ListPrinterCls);
        ("slist_proxy", ListPrinterCls);
        ("stailq_head", ListPrinterCls);
        ("stailq_proxy", ListPrinterCls);
        ("tailq_head", ListPrinterCls);
        ("tailq_proxy", ListPrinterCls);
        ("entry_ref_union", EntryRefPrinterCls)
      ]).

Section WithInferior.

Variable inf : Inferior.

(** [printer(value)] *)
Definition construct (cls : PrinterClass) (value : Value) : M Trace Printer :=
  match cls with
  | ListPrinterCls => p ← ListPrinter.__init__ inf value; mret (AListPrinter p)
  | EntryRefPrinterCls =>
      p ← lift (EntryRefPrinter.__init__ value); mret (AnEntryRefPrinter p)
  end.

(** Returns the pretty printer for a value, or [None]. *)
Definition __call__ (self : t) (value : Value) : M Trace (option Printer) :=
  let canonType := strip_typedefs (type_of value) in
  match code canonType with
  | TYPE_CODE_STRUCT | TYPE_CODE_UNION =>
      let typename := name_or_tag_or_str canonType in
      if negb (startswith typename "csg::") then mret None
      else
        baseName ← lift (_remove_generics (ArgStr (slice_from 5 typename)));
        match lookup self !! baseName with
        | Some printer => p ← construct printer value; mret (Some p)
        | None => mret None
        end
  | _ => mret None
  end.

End WithInferior.

End CSDPrettyPrinter.

(** ** Registration of the dispatcher with a program space *)

Definition _csd_printer_name : string := "csd_pretty_printer".

Module Registration.

(** What a program space's [pretty_printers] list may hold: the dispatcher
    of this file, another printer object with a [name], or a plain lookup
    function (no [name] attribute). *)
Inductive PrettyPrinter : Type :=
| CsdPrinter (p : CSDPrettyPrinter.t)
| NamedPrinter (name : string)
| FunctionPrinter.

#[global] Instance PrinterClass_eq_dec : EqDecision CSDPrettyPrinter.PrinterClass.
Proof. solve_decision. Defined.
#[global] Instance CSDPrettyPrinter_eq_dec : EqDecision CSDPrettyPrinter.t.
Proof. solve_decision. Defined.
#[global] Instance PrettyPrinter_eq_dec : EqDecision PrettyPrinter.
Proof. solve_decision. Defined.

(** [getattr(printer, "name", default)] *)
Definition getattr_name (printer : PrettyPrinter) (default : string) : string :=
  match printer with
  | CsdPrinter p => CSDPrettyPrinter.name p
  | NamedPrinter n => n
  | FunctionPrinter => default
  end.

(** [hasattr(p, "name") and p.name == n] *)
Definition has_name (n : string) (printer : PrettyPrinter) : bool :=
  match printer with
  | CsdPrinter p => String.eqb (CSDPrettyPrinter.name p) n
  | NamedPrinter m => String.eqb m n
  | FunctionPrinter => false
  end.

(** A [gdb.Progspace] as the handlers see it: the attribute
    [csd_pretty_printer] ([False] when it was never set) and the list of
    pretty-printers. *)
Record Progspace : Type := mkProgspace {
  csd_pretty_printer : bool;
  pretty_printers : list PrettyPrinter
}.

(** The handlers run on a program space and write to the console.  The
    file imports [gdb] and [gdb.xmethod], never [gdb.printing]: the handlers
    find that submodule only if something else has imported it into the
    interpreter, which [gdb_printing] records. *)
Record Session : Type := mkSession {
  gdb_printing : bool;
  progspace : Progspace;
  console : list string
}.

(** What the handlers and GDB's library raise. *)
Inductive RegExc : Type :=
| RegAttributeError               (* [AttributeError]: [gdb] has no attribute [printing] *)
| RegRuntimeError (msg : string)  (* [RuntimeError(msg)] *)
| RegValueError.  (* [ValueError]: [';'] in a printer name; [remove] of an absent element *)

(** [';' in name] *)
Fixpoint has_semicolon (s : string) : bool :=
  match s with
  | EmptyString => false
  | String c r => Ascii.eqb c ";" || has_semicolon r
  end.

(** [gdb.printing.register_pretty_printer(obj, printer)] as GDB's library
    defines it (with GDB's [verbose] setting off): a printer object with a
    [name] must not have [';'] in it and must not share it with a printer
    already in the list; the printer then goes to the front of the list. *)
Definition register_pretty_printer (obj : Progspace) (printer : PrettyPrinter)
    : RegExc + Progspace :=
  let insert := mkProgspace (csd_pretty_printer obj) (printer :: pretty_printers obj) in
  match printer with
  | FunctionPrinter => inr insert
  | _ =>
      let name := getattr_name printer "" in
      if has_semicolon name then inl RegValueError
      else if existsb (has_name name) (pretty_printers obj) then
        inl (RegRuntimeError ("pretty-printer already registered: " ++ name))
      else inr insert
  end.

(** [l.remove(x)]: drops the first element equal to [x]; [ValueError] when
    there is none. *)
Fixpoint list_remove (x : PrettyPrinter) (l : list PrettyPrinter)
    : option (list PrettyPrinter) :=
  match l with
  | [] => None
  | y :: r => if decide (y = x) then Some r else cons y <$> list_remove x r
  end.

(** The line is printed first; [gdb.printing.register_pretty_printer] is
    then looked up, before the dispatcher is built, and the flag is set
    only once the registration has returned. *)
Definition _register_csd_printers (s : Session) : option RegExc * Session :=
  let progspace := progspace s in
  if negb (csd_pretty_printer progspace) then
    let console := (console s ++ ["Loading csd pretty-printers"])%list in
    if gdb_printing s then
      match register_pretty_printer progspace
              (CsdPrinter (CSDPrettyPrinter.__init__ _csd_printer_name)) with
      | inl e => (Some e, mkSession (gdb_printing s) progspace console)
      | inr progspace =>
          (None, mkSession (gdb_printing s)
                   (mkProgspace true (pretty_printers progspace)) console)
      end
    else (Some RegAttributeError, mkSession (gdb_printing s) progspace console)
  else (None, s).

(** The [for] loop of [_unregister_csd_printers] over what is left of the
    list: [all] is the whole list, which [remove] works on. *)
Fixpoint unregister_loop (all rest : list PrettyPrinter) (flag : bool)
    : option RegExc * Progspace :=
  match rest with
  | [] => (None, mkProgspace flag all)
  | printer :: rest' =>
      if String.eqb (getattr_name printer "none") _csd_printer_name then
        match list_remove printer all with
        | Some l => (None, mkProgspace false l)      (* remove; setattr; break *)
        | None => (Some RegValueError, mkProgspace flag all)
        end
      else unregister_loop all rest' flag
  end.

Definition _unregister_csd_printers (s : Session) : option RegExc * Session :=
  let progspace := progspace s in
  if csd_pretty_printer progspace then
    match unregister_loop (pretty_printers progspace) (pretty_printers progspace)
            (csd_pretty_printer progspace) with
    | (e, progspace) => (e, mkSession (gdb_printing s) progspace (console s))
    end
  else (None, s).

End Registration.

(** ** Debuggees to run the printers on

    A list of [int] of linkage [k] ("slist" or "tailq"): the head lives at
    address 256, its forward head (and, for a tail queue, the sentinel entry
    embedded in it) at 264; every entry stores its element 8 bytes in. *)

Module Fixture.

Definition plain (c : TypeCode) (n : string) (targs : list (TemplateArg gdbType))
    (flds : list (string * gdbType)) : gdbType :=
  mkType c (Some n) None n targs flds None.

Definition int_ty : gdbType := plain TYPE_CODE_INT "int" [] [].
Definition ulong_ty : gdbType := plain TYPE_CODE_INT "unsigned long" [] [].
Definition fn_ty : gdbType := plain TYPE_CODE_FUNC "" [] [].

Section Linkage.

Variable k : string.

Definition entry_name : string := "csg::" ++ k ++ "_entry<int>".
Definition ref_name : string := "csg::entry_ref_union<" ++ entry_name ++ ", int>".
Definition extractor_name : string :=
  "csg::offset_extractor<" ++ entry_name ++ ", int, 8>".

Definition offset_ty : gdbType :=
  plain TYPE_CODE_STRUCT (ref_name ++ "::offset_type") [] [("m_address", ulong_ty)].
Definition entry_decl : gdbType :=
  plain TYPE_CODE_STRUCT entry_name [TArgType int_ty] [].
Definition ref_ty : gdbType :=
  plain TYPE_CODE_UNION ref_name [TArgType entry_decl; TArgType int_ty]
        [("offset", offset_ty)].
Definition entry_ty : gdbType :=
  plain TYPE_CODE_STRUCT entry_name [TArgType int_ty] [("next", ref_ty)].
Definition extractor_ty : gdbType :=
  plain TYPE_CODE_STRUCT extractor_name
        [TArgType entry_ty; TArgType int_ty; TArgValue ulong_ty 8 "8"] [].
Definition fwd_head_ty : gdbType :=
  plain TYPE_CODE_STRUCT ("csg::" ++ k ++ "_fwd_head<int, csg::no_size>")
        [TArgType int_ty]
        [(if String.eqb k "tailq" then "m_endEntry" else "m_headEntry", entry_ty)].
Definition base_ty : gdbType :=
  plain TYPE_CODE_STRUCT ("csg::" ++ k ++ "_base<int, " ++ extractor_name ++ ", csg::no_size>")
        [TArgType int_ty; TArgType extractor_ty] [].
Definition fwd_head_ref_ty : gdbType :=
  mkType TYPE_CODE_REF None None (type_str fwd_head_ty ++ " &") [] [] (Some fwd_head_ty).

(** The list type: [csg::<k>_head<...>] or [csg::<k>_proxy<...>]. *)
Definition list_ty (form : string) : gdbType :=
  plain TYPE_CODE_STRUCT
        ("csg::" ++ k ++ "_" ++ form ++ "<int, " ++ extractor_name ++ ", csg::no_size>")
        [TArgType int_ty; TArgType extractor_ty]
        [(type_str base_ty, base_ty);
         ("m_head", if String.eqb form "proxy" then fwd_head_ref_ty else fwd_head_ty);
         ("m_entryExtractor", extractor_ty)].

(** A tagged reference holding the address word [a]. *)
Definition ref (a : Z) : Value :=
  VStruct ref_ty None
    [("offset", VStruct offset_ty None [("m_address", VInt ulong_ty None a)])].

Definition entry (at_ next : Z) : Value :=
  VStruct entry_ty (Some at_) [("next", ref next)].

(** The forward head whose first reference is [first]. *)
Definition fwd_head (first : Z) : Value :=
  VStruct fwd_head_ty (Some 264)
    [(if String.eqb k "tailq" then "m_endEntry" else "m_headEntry", entry 264 first)].

Definition extractor : Value := VStruct extractor_ty (Some 256) [].

Definition head (first : Z) : Value :=
  VStruct (list_ty "head") (Some 256)
    [("m_head", fwd_head first); ("m_entryExtractor", extractor)].

(** A proxy standing elsewhere (at 128) for the head at 256, with its own
    extractor object (at 144). *)
Definition proxy_extractor : Value := VStruct extractor_ty (Some 144) [].

Definition proxy : Value :=
  VStruct (list_ty "proxy") (Some 128)
    [("m_head", VPtr fwd_head_ref_ty (Some 136) 264);
     ("m_entryExtractor", proxy_extractor)].

(** Target memory: the forward head at 264 and the cells
    [(address, next, element)]. *)
Fixpoint cell_at (cells : list (Z * Z * Z)) (a : Z) : option Value :=
  match cells with
  | [] => None
  | (at_, next, x) :: r =>
      if a =? at_ then Some (entry at_ next)
      else if a =? at_ + 8 then Some (VInt int_ty (Some (at_ + 8)) x)
      else cell_at r a
  end.

Definition memory (first : Z) (cells : list (Z * Z * Z)) (a : Z) : option Value :=
  if a =? 264 then Some (fwd_head first) else cell_at cells a.

Definition codec : string :=
  "csg::detail::entry_ref_codec<" ++ entry_name ++ ", int, csg::offset_extractor<"
    ++ entry_name ++ ", int, 8ul>>".
Definition get_entry_sym : string :=
  codec ++ "::get_entry(csg::offset_extractor<" ++ entry_name ++ ", int, 8ul> &, "
    ++ ref_name ++ ")".
Definition get_value_sym : string := codec ++ "::get_value(" ++ ref_name ++ ")".

Definition symtab (s : string) : option Symbol :=
  if String.eqb s get_entry_sym then Some (mkSymbol s true fn_ty)
  else if String.eqb s get_value_sym then Some (mkSymbol s true fn_ty)
  else None.

(** The address word of a reference, as the debuggee's accessors read it. *)
Definition word_of (r : Value) : option Z :=
  match r with
  | VStruct _ _ [(_, VStruct _ _ [(_, VInt _ _ a)])] => Some a
  | _ => None
  end.

(** The debuggee's own [get_entry] and [get_value]. *)
Definition call_function (s : string) (args : list Value) : option Value :=
  if String.eqb s get_entry_sym then
    match args with
    | [_; r] => a ← word_of r; Some (VPtr (pointer entry_ty) None a)
    | _ => None
    end
  else if String.eqb s get_value_sym then
    match args with
    | [r] => a ← word_of r; Some (VPtr (pointer int_ty) None (a + 8))
    | _ => None
    end
  else None.

Definition inferior (first : Z) (cells : list (Z * Z * Z)) : Inferior :=
  mkInferior (memory first cells) symtab call_function.

(** The same process with a symbol table that lacks the codec. *)
Definition stripped_inferior (first : Z) (cells : list (Z * Z * Z)) : Inferior :=
  mkInferior (memory first cells) (λ _, None) call_function.

End Linkage.

(** A singly-linked list holding 10, 20, 30. *)
Definition slist_cells : list (Z * Z * Z) :=
  [(4096, 8192, 10); (8192, 12288, 20); (12288, 0, 30)].
Definition slist_inferior : Inferior := inferior "slist" 4096 slist_cells.

(** A tail queue holding 7, 9: the last entry links back to the sentinel. *)
Definition tailq_cells : list (Z * Z * Z) := [(4096, 8192, 7); (8192, 264, 9)].
Definition tailq_inferior : Inferior := inferior "tailq" 4096 tailq_cells.

(** What a consumer sees of a pull: the labels and the integers. *)
Definition shown (items : list (string * Value)) : list (string * Res Z) :=
  map (λ y, (fst y, int_of (snd y))) items.

(** Dispatch on [v], then pull the children of the list printer. *)
Definition print_list (inf : Inferior) (v : Value) (fuel : nat)
    : option (list (string * Res Z) * option PyExc) :=
  match CSDPrettyPrinter.__call__ inf (CSDPrettyPrinter.__init__ "csd_pretty_printer") v [] with
  | (inr (Some (CSDPrettyPrinter.AListPrinter p)), tr) =>
      match ListPrinter.ListIterator.pull_all inf fuel (ListPrinter.children p, tr) with
      | Some (items, e, _) => Some (shown items, e)
      | None => None
      end
  | (inl e, _) => Some ([], Some e)
  | _ => None
  end.

End Fixture.

(** * Vocabulary of the statements *)

(** A name contains the template bracket. *)
Definition has_lt (s : string) : Prop := In "<"%char (list_ascii_of_string s).

(** The names of the fixed table. *)
Definition is_list_name (k : string) : Prop :=
  k = "slist_head" ∨ k = "slist_proxy" ∨ k = "stailq_head" ∨ k = "stailq_proxy"
  ∨ k = "tailq_head" ∨ k = "tailq_proxy".

Definition is_table_name (k : string) : Prop :=
  is_list_name k ∨ k = "entry_ref_union".

(** A closure type of the library's namespace, as GCC names it. *)
Definition lambda_value : Value :=
  VStruct (Fixture.plain TYPE_CODE_STRUCT "csg::<lambda()>" [] []) (Some 64) [].

(** A symbol the resolver accepts: present, and a function. *)
Definition usable (inf : Inferior) (symName : string) : bool :=
  match symtab inf symName with
  | Some sym => is_function sym
  | None => false
  end.

Module Import WalkSpec.
Import ListPrinter.ListIterator.

(** What the debuggee's accessors give for a reference, read off the
    [Inferior] directly: the value of an accessor call, the object a pointer
    designates, the element and the successor of a reference. *)
Definition accessor (inf : Inferior) (fn : Value) (args : list Value) : option Value :=
  match fn with
  | VFunc _ s => call_function inf s args
  | _ => None
  end.

Definition target_of (inf : Inferior) (p : Value) : option Value :=
  match p with
  | VPtr _ _ a => memory inf a
  | _ => None
  end.

Definition is_pointer (p : Value) : bool :=
  match p with
  | VPtr ty _ _ => negb (TypeCode_eqb (code (strip_typedefs ty)) TYPE_CODE_REF)
  | _ => false
  end.

Definition element_at (inf : Inferior) (it : t) (ref : Value) : option Value :=
  p ← accessor inf (getValueFn it) [ref]; target_of inf p.

Definition entry_at (inf : Inferior) (it : t) (ref : Value) : option Value :=
  q ← accessor inf (getEntryFn it) [entryEx it; ref];
  if is_pointer q then target_of inf q else None.

Definition successor (inf : Inferior) (it : t) (ref : Value) : option Value :=
  e ← entry_at inf it ref;
  match getitem e "next" with inr next => Some next | inl _ => None end.

(** The entries reachable from a reference before the stop reference, each
    with the reference that leads to it and the element it holds. *)
Inductive chain (inf : Inferior) (it : t) : Value → list (Value * Value) → Prop :=
| chain_stop ref :
    ref_address ref = inr (stopEntryRefValue it) →
    chain inf it ref []
| chain_entry ref a item next rest :
    ref_address ref = inr a → a ≠ stopEntryRefValue it →
    element_at inf it ref = Some item →
    successor inf it ref = Some next →
    chain inf it next rest →
    chain inf it ref ((ref, item) :: rest).

(** The accessor calls a walk over these entries makes, in order. *)
Definition call_event (fn : Value) (args : list Value) : list Event :=
  match fn with
  | VFunc _ s => [EvCall s args]
  | _ => []
  end.

Definition expected_calls (it : t) (entries : list (Value * Value)) : list Event :=
  flat_map (λ e, call_event (getValueFn it) [fst e]
                   ++ call_event (getEntryFn it) [entryEx it; fst e])%list entries.

Definition is_call (e : Event) : bool :=
  match e with EvCall _ _ => true | _ => false end.

(** Labels counting on from [c]. *)
Fixpoint labelled (c : Z) (entries : list (Value * Value)) : list (string * Value) :=
  match entries with
  | [] => []
  | (_, item) :: rest => ("[" ++ str_int (c + 1) ++ "]", item) :: labelled (c + 1) rest
  end.

End WalkSpec.

(** The three entries of the singly-linked list of [Fixture]. *)
Definition slist_entries : list (Value * Value) :=
  [(Fixture.ref "slist" 4096, VInt Fixture.int_ty (Some 4104) 10);
   (Fixture.ref "slist" 8192, VInt Fixture.int_ty (Some 8200) 20);
   (Fixture.ref "slist" 12288, VInt Fixture.int_ty (Some 12296) 30)].

Definition slist_iterator : ListPrinter.ListIterator.t :=
  ListPrinter.ListIterator.__init__ (Fixture.ref "slist" 4096)
    (Fixture.extractor "slist")
    (VFunc Fixture.fn_ty (Fixture.get_entry_sym "slist"))
    (VFunc Fixture.fn_ty (Fixture.get_value_sym "slist")) 0.

Module Import SetupPhases.

(** The setup of [ListPrinter.__init__] in its phases: what is read of the
    value before the head is resolved, and what is read of the resolved head
    and of the types before the codec is resolved.  [init_phases] below
    shows that [__init__] is these phases in sequence. *)
Definition before_head (value : Value) : Res (Value * string * Value) :=
  entryEx ← getitem value "m_entryExtractor";
  qualListTyName ← _remove_generics (ArgType (strip_typedefs (type_of value)));
  if negb (startswith qualListTyName "csg::") then throw (AssertionError "")
  else
    fwdHead ← getitem value "m_head";
    mret (entryEx, slice_from 5 qualListTyName, fwdHead).

(** The element type: template argument 0 of the first field's type. *)
Definition element_type_of (value : Value) : Res (TemplateArg gdbType) :=
  flds ← fields_of (type_of value);
  baseCls ← from_option IndexError (snd <$> flds !! 0%nat);
  template_argument baseCls 0.

Definition after_head (value : Value) (isTailQ : bool) (fwdHead : Value)
    : Res (Z * Value * TemplateArg gdbType * TemplateArg gdbType) :=
  listHeadEntry ← getitem fwdHead (if isTailQ then "m_endEntry" else "m_headEntry");
  stopEntryRefValue ← (if isTailQ then int_of_address listHeadEntry else mret 0);
  firstEntryRef ← getitem listHeadEntry "next";
  elementTy ← element_type_of value;
  entryTy ← template_argument (type_of firstEntryRef) 0;
  mret (stopEntryRefValue, firstEntryRef, elementTy, entryTy).

Definition resolve_head (inf : Inferior) (isProxy : bool) (fwdHead : Value)
    : M Trace Value :=
  if isProxy then referenced_value inf fwdHead else mret fwdHead.

End SetupPhases.

(** What the consumer of a walk gets: the pairs yielded and the exception
    that ended the walk, if any; not the iterator object, nor the trace. *)
Definition yielded
    (r : option (list (string * Value) * option PyExc
                 * (ListPrinter.ListIterator.t * Trace)))
    : option (list (string * Value) * option PyExc) :=
  match r with
  | Some (items, e, _) => Some (items, e)
  | None => None
  end.

(** The iterator [it] holding the extractor object [ex] instead of its own. *)
Definition with_extractor (it : ListPrinter.ListIterator.t) (ex : Value)
    : ListPrinter.ListIterator.t :=
  ListPrinter.ListIterator.mk (ListPrinter.ListIterator.nextEntryRef it) ex
    (ListPrinter.ListIterator.getEntryFn it) (ListPrinter.ListIterator.getValueFn it)
    (ListPrinter.ListIterator.count it) (ListPrinter.ListIterator.stopEntryRefValue it).

(** ** Vocabulary of the further properties *)

Module Import PathSpec.
Import ListPrinter.ListIterator.

(** The iterator [it] positioned at [ref] with [c] pulls behind it. *)
Definition at_ref (it : t) (ref : Value) (c : Z) : t :=
  mk ref (entryEx it) (getEntryFn it) (getValueFn it) c (stopEntryRefValue it).

(** A stretch of the list: the entries met from a reference up to, and not
    including, the reference [last] (which need not be the stop reference). *)
Inductive path (inf : Inferior) (it : t) : Value → list (Value * Value) → Value → Prop :=
| path_here ref : path inf it ref [] ref
| path_entry ref a item next rest last :
    ref_address ref = inr a → a ≠ stopEntryRefValue it →
    element_at inf it ref = Some item →
    successor inf it ref = Some next →
    path inf it next rest last →
    path inf it ref ((ref, item) :: rest) last.

End PathSpec.

(** What a consumer gets from a constructed printer: the iterator of a list
    printer, the pairs of a reference printer. *)
Definition children_of (p : CSDPrettyPrinter.Printer)
    : ListPrinter.ListIterator.t + list (string * Value) :=
  match p with
  | CSDPrettyPrinter.AListPrinter l => inl (ListPrinter.children l)
  | CSDPrettyPrinter.AnEntryRefPrinter r => inr (EntryRefPrinter.children r)
  end.

Definition outcome (r : Res (option CSDPrettyPrinter.Printer))
    : Res (option (ListPrinter.ListIterator.t + list (string * Value))) :=
  match r with
  | inl e => inl e
  | inr o => inr (children_of <$> o)
  end.

(** The list printer [p] once pulls have brought its iterator to [it]. *)
Definition with_iterator (p : ListPrinter.t) (it : ListPrinter.ListIterator.t)
    : ListPrinter.t :=
  ListPrinter.mk (ListPrinter.value p) (ListPrinter.entryEx p)
    (ListPrinter.listTyName p) (ListPrinter.isProxy p) (ListPrinter.isTailQ p)
    (ListPrinter.fwdHead p) (ListPrinter.elementTy p) (ListPrinter.entryTy p)
    (ListPrinter.entryExTy p) it.

(** The number of printers of a program space that carry the name [n]. *)
Definition count_named (n : string) (l : list Registration.PrettyPrinter) : nat :=
  length (List.filter (Registration.has_name n) l).

(** The flag tells whether the dispatcher is in the list: set, there is
    exactly one printer of its name; unset, there is none. *)
Definition consistent (ps : Registration.Progspace) : Prop :=
  count_named _csd_printer_name (Registration.pretty_printers ps)
    = if Registration.csd_pretty_printer ps then 1%nat else 0%nat.

(** A list head with a size member of type [szTy], for the summary. *)
Definition sized_printer (szTy : gdbType) (sz first : Z)
    (it : ListPrinter.ListIterator.t) : ListPrinter.t :=
  ListPrinter.mk (Fixture.head "slist" first) (Fixture.extractor "slist")
    "slist_head" false false
    (VStruct (Fixture.fwd_head_ty "slist") (Some 264)
       [("m_headEntry", Fixture.entry "slist" 264 first);
        ("m_sz", VInt szTy (Some 272) sz)])
    (TArgType Fixture.int_ty) (TArgType (Fixture.entry_decl "slist"))
    (Fixture.extractor_ty "slist") it.

Definition size_t_ty : gdbType :=
  mkType TYPE_CODE_TYPEDEF (Some "std::size_t") None "std::size_t" [] []
    (Some Fixture.ulong_ty).

(** An extractor that is a closure: Clang gives its type no name, GCC the
    name [<lambda()>]. *)
Definition unnamed_extractor_ty : gdbType :=
  mkType TYPE_CODE_STRUCT None None "struct {...}" [] [] None.

(** An offset extractor whose debug information lacks the third template
    argument. *)
Definition short_extractor_ty : gdbType :=
  Fixture.plain TYPE_CODE_STRUCT "csg::offset_extractor<csg::slist_entry<int>, int>"
    [TArgType (Fixture.entry_decl "slist"); TArgType Fixture.int_ty] [].

(** The list head of [Fixture] seen through [typedef ... my_list]. *)
Definition my_list_ty : gdbType :=
  mkType TYPE_CODE_TYPEDEF (Some "my_list") None "my_list" [] []
    (Some (Fixture.list_ty "slist" "head")).

(** The list 10, 20, 30 in a debuggee whose one-argument accessor fails on
    the reference to the third entry. *)
Definition failing_inferior : Inferior :=
  mkInferior (Fixture.memory "slist" 4096 Fixture.slist_cells)
    (Fixture.symtab "slist")
    (λ s args,
       match args with
       | [r] =>
           match Fixture.word_of r with
           | Some 12288 => None
           | _ => Fixture.call_function "slist" s args
           end
       | _ => Fixture.call_function "slist" s args
       end).

(** Two entries that link to each other. *)
Definition looping_inferior : Inferior :=
  Fixture.inferior "slist" 4096 [(4096, 8192, 1); (8192, 4096, 2)].

(** A program space that has other printers and not yet the dispatcher,
    in an interpreter with or without [gdb.printing]. *)
Definition fresh_session (gdb_printing : bool) : Registration.Session :=
  Registration.mkSession gdb_printing
    (Registration.mkProgspace false
       [Registration.NamedPrinter "libstdc++-v6"; Registration.FunctionPrinter])
    [].

(** The list without its first printer named [n]. *)
Fixpoint without_first (n : string) (l : list Registration.PrettyPrinter)
    : list Registration.PrettyPrinter :=
  match l with
  | [] => []
  | p :: r => if Registration.has_name n p then r else p :: without_first n r
  end.

(** A constant of type [char]: GDB renders a value of a character type as
    the number followed by the character. *)
Definition char_ty : gdbType := Fixture.plain TYPE_CODE_INT "char" [] [].

Definition char_offset : TemplateArg gdbType := TArgValue char_ty 65 "65 'A'".

(** A rendering of values to run the summary with: integers in decimal, a
    [char] with its character (here only ['A']), anything else folded. *)
Definition render (v : Value) : string :=
  match v with
  | VInt ty _ n =>
      if bool_decide (name ty = Some "char") && (n =? 65) then "65 'A'"
      else str_int n
  | _ => "{...}"
  end.

(** An offset extractor whose third argument is that constant. *)
Definition char_extractor_ty : gdbType :=
  Fixture.plain TYPE_CODE_STRUCT
    "csg::offset_extractor<csg::slist_entry<int>, int, 'A'>"
    [TArgType (Fixture.entry_decl "slist"); TArgType Fixture.int_ty; char_offset] [].

(** * Properties *)

(** ** The monads, step by step *)

Lemma M_bind_unfold {S A B} (m : M S A) (k : A → M S B) (s : S) :
  (m ≫= k) s = match m s with
               | (inr a, s') => k a s'
               | (inl e, s') => (inl e, s')
               end.
Proof. reflexivity. Qed.

Lemma lift_bind {S A B} (r : Res A) (k : A → M S B) (s : S) :
  (lift r ≫= k) s = match r with inr a => k a s | inl e => (inl e, s) end.
Proof. by destruct r. Qed.

Lemma Res_bind_unfold {A B} (m : Res A) (k : A → Res B) :
  (m ≫= k) = match m with inr a => k a | inl e => inl e end.
Proof. reflexivity. Qed.

Lemma on_snd_bind {S T A B} (m : M T A) (k : A → M (S * T) B) (x : S) (t : T) :
  (on_snd m ≫= k) (x, t) = match m t with
                           | (inr a, t') => k a (x, t')
                           | (inl e, t') => (inl e, (x, t'))
                           end.
Proof.
  rewrite M_bind_unfold. unfold on_snd. cbn [fst snd].
  by destruct (m t) as [[e|a] t'].
Qed.

Lemma read_target_run (inf : Inferior) (a : Z) (tr : Trace) :
  read_target inf a tr =
    (from_option (MemoryError a) (memory inf a), (tr ++ [EvReadMemory a])%list).
Proof. reflexivity. Qed.

Lemma call_run (inf : Inferior) (ty : gdbType) (s : string) (args : list Value)
    (tr : Trace) :
  call inf (VFunc ty s) args tr =
    (from_option GdbError (call_function inf s args), (tr ++ [EvCall s args])%list).
Proof. reflexivity. Qed.

(** Push the binds of pure steps until a result has to be looked at. *)
Ltac res_steps :=
  repeat (progress (rewrite ?lift_bind, ?Res_bind_unfold; cbv beta iota)).

(** ** Helper lemmas on strings *)

Lemma span_not_lt_no_lt (s : string) : ¬ has_lt (span_not_lt s).
Proof.
  unfold has_lt. induction s as [|c s IH]; simpl; [tauto|].
  destruct (Ascii.eqb_spec c "<"); simpl; [tauto|].
  intros [H|H]; [congruence | tauto].
Qed.

Lemma span_not_lt_split (s : string) :
  ∃ rest, s = span_not_lt s ++ rest ∧ (rest = "" ∨ ∃ rest', rest = String "<" rest').
Proof.
  induction s as [|c s (rest & Hs & Hrest)]; simpl.
  - exists "". auto.
  - destruct (Ascii.eqb_spec c "<") as [->|Hc]; simpl.
    + exists (String "<" s). eauto.
    + exists rest. split; [|assumption].
      change (String c s = String c (span_not_lt s ++ rest)). congruence.
Qed.

Lemma span_not_lt_id (s : string) : ¬ has_lt s → span_not_lt s = s.
Proof.
  unfold has_lt. induction s as [|c s IH]; simpl; [reflexivity|].
  intros H. destruct (Ascii.eqb_spec c "<") as [->|Hc]; [tauto|].
  f_equal. apply IH. tauto.
Qed.

Lemma re_match_prefix_cons (c : ascii) (n : string) :
  c ≠ "<"%char → re_match_prefix (String c n) = Some (span_not_lt (String c n)).
Proof.
  intros Hc. unfold re_match_prefix. simpl.
  destruct (Ascii.eqb_spec c "<"); [contradiction | reflexivity].
Qed.

Lemma remove_generics_cons (c : ascii) (n : string) :
  c ≠ "<"%char →
  _remove_generics (ArgStr (String c n)) = inr (span_not_lt (String c n)).
Proof.
  intros Hc. unfold _remove_generics. cbn [mbind Res_bind mret Res_ret].
  rewrite re_match_prefix_cons by assumption. reflexivity.
Qed.

(** ** TypeNameNormalizer *)

(** C9, as stated, fails: the normalizer is not total.  A name that starts
    with the template bracket (GCC names closure types [<lambda()>]) has an
    empty prefix, the pattern does not match and [match.group] raises. *)
Lemma remove_generics_not_total :
  _remove_generics (ArgStr "<lambda()>") = inl AttributeError
  ∧ _remove_generics (ArgStr "") = inl AttributeError
  ∧ ¬ (∀ s : string, ∃ r, _remove_generics (ArgStr s) = inr r).
Proof.
  split; [reflexivity|]. split; [reflexivity|].
  intros H. destruct (H "<lambda()>") as [r Hr]. discriminate Hr.
Qed.

(** C9 (amended): on every name that is not empty and does not begin with
    ['<'], [_remove_generics] returns the prefix [r] before the first ['<']:
    the name is [r ++ rest], [r] has no ['<'] and [rest] is empty or starts
    with ['<'].  A name without ['<'] is returned unchanged, and a type
    descriptor is normalized as its name (or tag, or printed form) is.  The
    function touches no state: its type is [Res string]. *)
Theorem remove_generics_prefix (c : ascii) (n : string) :
  c ≠ "<"%char →
  ∃ r rest,
    _remove_generics (ArgStr (String c n)) = inr r
    ∧ String c n = r ++ rest
    ∧ ¬ has_lt r
    ∧ (rest = "" ∨ ∃ rest', rest = String "<" rest')
    ∧ (¬ has_lt (String c n) → r = String c n)
    ∧ (∀ ty, name_or_tag_or_str ty = String c n → _remove_generics (ArgType ty) = inr r).
Proof.
  intros Hc.
  destruct (span_not_lt_split (String c n)) as (rest & Hsplit & Hrest).
  exists (span_not_lt (String c n)), rest.
  split; [by apply remove_generics_cons|].
  split; [exact Hsplit|].
  split; [apply span_not_lt_no_lt|].
  split; [exact Hrest|].
  split; [apply span_not_lt_id|].
  intros ty Hty. rewrite <- (remove_generics_cons c n Hc).
  unfold _remove_generics. cbn [mbind Res_bind mret Res_ret]. by rewrite Hty.
Qed.

Lemma remove_generics_prefix_witness :
  ∃ r rest,
    _remove_generics (ArgStr "csg::slist_head<int, csg::no_size>") = inr r
    ∧ "csg::slist_head<int, csg::no_size>" = r ++ rest
    ∧ ¬ has_lt r
    ∧ (rest = "" ∨ ∃ rest', rest = String "<" rest')
    ∧ (¬ has_lt "csg::slist_head<int, csg::no_size>"
       → r = "csg::slist_head<int, csg::no_size>")
    ∧ (∀ ty, name_or_tag_or_str ty = "csg::slist_head<int, csg::no_size>"
             → _remove_generics (ArgType ty) = inr r).
Proof.
  apply (remove_generics_prefix "c" "sg::slist_head<int, csg::no_size>").
  discriminate.
Defined.

(** ** OffsetParameterEncoder *)

Lemma suffix_lookup_other (K : string) :
  K ≠ "long" → K ≠ "long long" → K ≠ "unsigned int" → K ≠ "unsigned long" →
  K ≠ "unsigned long long" →
  _nttpIntegralSuffix !! K = None.
Proof.
  intros. unfold _nttpIntegralSuffix. simpl.
  repeat (rewrite lookup_insert_ne; [|congruence]).
  apply lookup_empty.
Qed.

(** C4, as stated, fails: the encoder's output starts with [str(V)],
    GDB's rendering of the constant, which is not the decimal text of [V]
    for every type outside the table: a [char] constant 65 is rendered with
    its character, and so is the extractor text built from it. *)
Lemma offset_encoder_char_constant :
  fixedOffset (name char_ty) (str_targ char_offset) = "65 'A'"
  ∧ fixedOffset (name char_ty) (str_targ char_offset) ≠ str_int 65
  ∧ _get_entry_extractor_typename char_extractor_ty
    = inr "csg::offset_extractor<csg::slist_entry<int>, int, 65 'A'>".
Proof. split; [reflexivity|]. split; [discriminate|reflexivity]. Qed.

(** C4 (amended): the offset argument is rendered as [str(V)], GDB's
    rendering of the constant, followed by the suffix the table gives for
    the name of its type; a type outside the table (or without a name) gets
    the rendering alone.  Where GDB renders the constant in decimal, this
    is the decimal text with the suffix. *)
Theorem offset_encoder_table (text : string) :
  fixedOffset (Some "long") text = text ++ "l"
  ∧ fixedOffset (Some "long long") text = text ++ "ll"
  ∧ fixedOffset (Some "unsigned int") text = text ++ "u"
  ∧ fixedOffset (Some "unsigned long") text = text ++ "ul"
  ∧ fixedOffset (Some "unsigned long long") text = text ++ "ull"
  ∧ fixedOffset None text = text
  ∧ ∀ K : string,
      K ≠ "long" → K ≠ "long long" → K ≠ "unsigned int" → K ≠ "unsigned long" →
      K ≠ "unsigned long long" →
      fixedOffset (Some K) text = text.
Proof.
  repeat split; try reflexivity.
  intros K **. unfold fixedOffset, dict_get.
  by rewrite suffix_lookup_other.
Qed.

Lemma offset_encoder_table_witness :
  fixedOffset (Some "unsigned long") (str_int 8) = "8ul"
  ∧ fixedOffset (Some "int") (str_int 8) = "8"
  ∧ fixedOffset (Some "long") (str_int (-16)) = "-16l"
  ∧ fixedOffset (Some "char") "65 'A'" = "65 'A'".
Proof.
  pose proof (offset_encoder_table (str_int 8)) as (_ & _ & _ & Hul & _ & _ & Hother).
  pose proof (offset_encoder_table (str_int (-16))) as (Hl & _).
  pose proof (offset_encoder_table "65 'A'") as (_ & _ & _ & _ & _ & _ & Hchar).
  split; [exact Hul|]. split; [apply (Hother "int"); discriminate|].
  split; [exact Hl|]. apply (Hchar "char"); discriminate.
Defined.

(** ** TaggedReferenceDecoder *)

Lemma land_1_odd (a : Z) : negb (Z.land a 1 =? 0) = Z.odd a.
Proof.
  change 1 with (Z.ones 1). rewrite Z.land_ones by lia.
  change (2 ^ 1) with 2. rewrite Zmod_odd.
  by destruct (Z.odd a).
Qed.

(** C6: on a reference union whose address word is [A] and whose type has
    the entry type and the element type as template arguments 0 and 1, the
    decoder succeeds for every [A] and yields exactly one pair: for odd [A]
    the pointer to the element type at [A - 1], for even [A] (zero too) the
    pointer to the entry type at [A], labelled with the pointer type.  It
    reads no target memory (its type is [Res]), so nothing is followed. *)
Theorem entry_ref_decoder_total
    (value offset : Value) (wty : gdbType) (waddr : option Z) (A : Z)
    (entryTy elementTy : gdbType) (more : list (TemplateArg gdbType)) :
  getitem value "offset" = inr offset →
  getitem offset "m_address" = inr (VInt wty waddr A) →
  template_arguments (strip_typedefs (type_of value))
    = TArgType entryTy :: TArgType elementTy :: more →
  ∃ p, EntryRefPrinter.__init__ value = inr p
    ∧ EntryRefPrinter.children p =
        [ if Z.odd A
          then (type_str (pointer elementTy), VPtr (pointer elementTy) None (A - 1))
          else (type_str (pointer entryTy), VPtr (pointer entryTy) None A) ].
Proof.
  intros Hoff Haddr Hargs.
  unfold EntryRefPrinter.__init__. rewrite Hoff. cbn [mbind Res_bind].
  rewrite Haddr. cbn [mbind Res_bind int_of mret Res_ret].
  rewrite land_1_odd. unfold template_argument. rewrite Hargs.
  destruct (Z.odd A); cbn; eexists; split; reflexivity.
Qed.

Lemma entry_ref_decoder_total_witness :
  (∃ p, EntryRefPrinter.__init__ (Fixture.ref "slist" 4105) = inr p
     ∧ EntryRefPrinter.children p =
         [("int *", VPtr (pointer Fixture.int_ty) None 4104)])
  ∧ (∃ p, EntryRefPrinter.__init__ (Fixture.ref "slist" 0) = inr p
     ∧ EntryRefPrinter.children p =
         [("csg::slist_entry<int> *",
           VPtr (pointer (Fixture.entry_decl "slist")) None 0)]).
Proof.
  split.
  - eapply (entry_ref_decoder_total (Fixture.ref "slist" 4105)) with
      (A := 4105) (entryTy := Fixture.entry_decl "slist")
      (elementTy := Fixture.int_ty) (more := []); reflexivity.
  - eapply (entry_ref_decoder_total (Fixture.ref "slist" 0)) with
      (A := 0) (entryTy := Fixture.entry_decl "slist")
      (elementTy := Fixture.int_ty) (more := []); reflexivity.
Defined.

(** ** Dispatcher *)

Lemma lookup_table (nm k : string) :
  CSDPrettyPrinter.lookup (CSDPrettyPrinter.__init__ nm) !! k =
    if decide (k = "slist_head") then Some CSDPrettyPrinter.ListPrinterCls
    else if decide (k = "slist_proxy") then Some CSDPrettyPrinter.ListPrinterCls
    else if decide (k = "stailq_head") then Some CSDPrettyPrinter.ListPrinterCls
    else if decide (k = "stailq_proxy") then Some CSDPrettyPrinter.ListPrinterCls
    else if decide (k = "tailq_head") then Some CSDPrettyPrinter.ListPrinterCls
    else if decide (k = "tailq_proxy") then Some CSDPrettyPrinter.ListPrinterCls
    else if decide (k = "entry_ref_union") then Some CSDPrettyPrinter.EntryRefPrinterCls
    else None.
Proof.
  unfold CSDPrettyPrinter.__init__. simpl.
  repeat (rewrite lookup_insert; case_decide; [subst k; reflexivity|];
          rewrite decide_False by congruence).
  apply lookup_empty.
Qed.

Lemma lookup_table_list (nm k : string) :
  CSDPrettyPrinter.lookup (CSDPrettyPrinter.__init__ nm) !! k
    = Some CSDPrettyPrinter.ListPrinterCls ↔ is_list_name k.
Proof.
  rewrite lookup_table. unfold is_list_name.
  repeat (case_decide; [subst k; intuition congruence|]).
  intuition congruence.
Qed.

Lemma lookup_table_entry_ref (nm k : string) :
  CSDPrettyPrinter.lookup (CSDPrettyPrinter.__init__ nm) !! k
    = Some CSDPrettyPrinter.EntryRefPrinterCls ↔ k = "entry_ref_union".
Proof.
  rewrite lookup_table.
  repeat (case_decide; [subst k; intuition congruence|]).
  intuition congruence.
Qed.

Lemma lookup_table_none (nm k : string) :
  CSDPrettyPrinter.lookup (CSDPrettyPrinter.__init__ nm) !! k = None
  ↔ ¬ is_table_name k.
Proof.
  rewrite lookup_table. unfold is_table_name, is_list_name.
  repeat (case_decide; [subst k; intuition congruence|]).
  intuition congruence.
Qed.

(** C8, as stated, fails: the value below is a struct in [csg::] whose
    remaining name ["<lambda()>"] has the empty prefix before its bracket,
    which is outside the table; the dispatcher does not answer "no decoder"
    but raises out of [_remove_generics]. *)
Lemma dispatcher_raises_on_lambda :
  ¬ is_table_name (span_not_lt (slice_from 5 "csg::<lambda()>"))
  ∧ CSDPrettyPrinter.__call__ Fixture.slist_inferior
      (CSDPrettyPrinter.__init__ "csd_pretty_printer") lambda_value []
    = (inl AttributeError, []).
Proof.
  split; [|reflexivity].
  unfold is_table_name, is_list_name. simpl. intuition discriminate.
Qed.

(** C8 (amended): the table maps exactly the six list names to the list
    walker and [entry_ref_union] to the tagged-reference decoder, and the
    dispatcher answers "no applicable decoder" ([None], no exception, no
    request to the debuggee) whenever the typedef-stripped kind is neither
    struct nor union, or the name lacks the [csg::] prefix, or the remaining
    name is not empty, does not begin with ['<'] and its normalized form is
    outside the table. *)
Theorem dispatcher_no_decoder
    (inf : Inferior) (nm : string) (value : Value) (tr : Trace) :
  let self := CSDPrettyPrinter.__init__ nm in
  let canonType := strip_typedefs (type_of value) in
  let typename := name_or_tag_or_str canonType in
  (∀ k, CSDPrettyPrinter.lookup self !! k = Some CSDPrettyPrinter.ListPrinterCls
        ↔ is_list_name k)
  ∧ (∀ k, CSDPrettyPrinter.lookup self !! k = Some CSDPrettyPrinter.EntryRefPrinterCls
          ↔ k = "entry_ref_union")
  ∧ ((code canonType ≠ TYPE_CODE_STRUCT ∧ code canonType ≠ TYPE_CODE_UNION)
     ∨ startswith typename "csg::" = false
     ∨ (∃ c r, slice_from 5 typename = String c r ∧ c ≠ "<"%char
               ∧ ¬ is_table_name (span_not_lt (String c r)))
     → CSDPrettyPrinter.__call__ inf self value tr = (inr None, tr)).
Proof.
  intros self canonType typename.
  split; [intros k; apply lookup_table_list|].
  split; [intros k; apply lookup_table_entry_ref|].
  intros H. unfold CSDPrettyPrinter.__call__.
  fold canonType. fold typename.
  destruct H as [[Hs Hu] | [Hp | (c & r & Hrest & Hc & Hk)]].
  - destruct (code canonType); try reflexivity; congruence.
  - rewrite Hp. destruct (code canonType); reflexivity.
  - apply (lookup_table_none nm) in Hk.
    destruct (code canonType); try reflexivity;
      (destruct (startswith typename "csg::"); [|reflexivity]);
      cbv beta zeta; unfold negb;
      rewrite lift_bind, Hrest, (remove_generics_cons c r Hc);
      unfold self; rewrite Hk; reflexivity.
Qed.

Lemma dispatcher_no_decoder_witness :
  CSDPrettyPrinter.__call__ Fixture.slist_inferior
    (CSDPrettyPrinter.__init__ "csd_pretty_printer")
    (VStruct (Fixture.plain TYPE_CODE_STRUCT "csg::no_size" [] []) None []) []
  = (inr None, []).
Proof.
  apply (dispatcher_no_decoder Fixture.slist_inferior "csd_pretty_printer"
           (VStruct (Fixture.plain TYPE_CODE_STRUCT "csg::no_size" [] []) None []) []).
  right. right. exists "n"%char, "o_size".
  split; [reflexivity|]. split; [discriminate|].
  unfold is_table_name, is_list_name. simpl. intuition discriminate.
Defined.

(** ** CodecResolver *)

Lemma lookupEntryRefCodecSymbol_run (inf : Inferior) (cls fn : string) (tr : Trace) :
  lookupEntryRefCodecSymbol inf cls fn tr =
    (match symtab inf (cls ++ "::" ++ fn) with
     | Some sym =>
         if is_function sym then inr sym else inl (missing_symbol (cls ++ "::" ++ fn))
     | None => inl (missing_symbol (cls ++ "::" ++ fn))
     end,
     (tr ++ [EvLookupSymbol (cls ++ "::" ++ fn)])%list).
Proof.
  unfold lookupEntryRefCodecSymbol, lookup_symbol, emit.
  cbv zeta. rewrite !M_bind_unfold. cbn [mret M_ret].
  destruct (symtab inf _) as [sym|]; [destruct (is_function sym)|]; reflexivity.
Qed.

Lemma lookup_codec_run (inf : Inferior) (elementTy entryTy : TemplateArg gdbType)
    (entryExTy refTy : gdbType) (tr : Trace) (text : string) :
  _get_entry_extractor_typename entryExTy = inr text →
  let cls := "csg::detail::entry_ref_codec<" ++ str_targ entryTy ++ ", "
               ++ str_targ elementTy ++ ", " ++ text ++ ">" in
  let s1 := cls ++ "::" ++ "get_entry(" ++ text ++ " &, " ++ type_str refTy ++ ")" in
  let s2 := cls ++ "::" ++ "get_value(" ++ type_str refTy ++ ")" in
  _lookup_entry_ref_codec_functions inf elementTy entryTy entryExTy refTy tr =
    match symtab inf s1 with
    | Some sym1 =>
        if is_function sym1 then
          match symtab inf s2 with
          | Some sym2 =>
              if is_function sym2
              then (inr (symbol_value sym1, symbol_value sym2),
                    (tr ++ [EvLookupSymbol s1; EvLookupSymbol s2])%list)
              else (inl (missing_symbol s2),
                    (tr ++ [EvLookupSymbol s1; EvLookupSymbol s2])%list)
          | None => (inl (missing_symbol s2),
                     (tr ++ [EvLookupSymbol s1; EvLookupSymbol s2])%list)
          end
        else (inl (missing_symbol s1), (tr ++ [EvLookupSymbol s1])%list)
    | None => (inl (missing_symbol s1), (tr ++ [EvLookupSymbol s1])%list)
    end.
Proof.
  intros Htext cls s1 s2. unfold _lookup_entry_ref_codec_functions.
  rewrite lift_bind, Htext. cbv zeta. fold cls.
  rewrite M_bind_unfold, lookupEntryRefCodecSymbol_run. fold s1.
  destruct (symtab inf s1) as [sym1|]; [|reflexivity].
  destruct (is_function sym1); [|reflexivity].
  rewrite M_bind_unfold, lookupEntryRefCodecSymbol_run. fold s2.
  rewrite <- app_assoc. cbn [app].
  destruct (symtab inf s2) as [sym2|]; [|reflexivity].
  destruct (is_function sym2); reflexivity.
Qed.

(** The resolver fails on the first symbol that is absent or not a function. *)
Lemma lookup_codec_missing (inf : Inferior) (elementTy entryTy : TemplateArg gdbType)
    (entryExTy refTy : gdbType) (tr : Trace) (text : string) :
  _get_entry_extractor_typename entryExTy = inr text →
  let cls := "csg::detail::entry_ref_codec<" ++ str_targ entryTy ++ ", "
               ++ str_targ elementTy ++ ", " ++ text ++ ">" in
  let s1 := cls ++ "::get_entry(" ++ text ++ " &, " ++ type_str refTy ++ ")" in
  let s2 := cls ++ "::get_value(" ++ type_str refTy ++ ")" in
  usable inf s1 && usable inf s2 = false →
  _lookup_entry_ref_codec_functions inf elementTy entryTy entryExTy refTy tr
    = (inl (missing_symbol (if usable inf s1 then s2 else s1)),
       (tr ++ (if usable inf s1 then [EvLookupSymbol s1; EvLookupSymbol s2]
               else [EvLookupSymbol s1]))%list).
Proof.
  intros Htext cls s1 s2 Hmissing.
  rewrite (lookup_codec_run inf elementTy entryTy entryExTy refTy tr text Htext).
  cbv zeta. fold cls.
  change (cls ++ "::" ++ "get_entry(" ++ text ++ " &, " ++ type_str refTy ++ ")")
    with s1.
  change (cls ++ "::" ++ "get_value(" ++ type_str refTy ++ ")") with s2.
  unfold usable in *.
  destruct (symtab inf s1) as [sym1|]; [destruct (is_function sym1)|];
    [destruct (symtab inf s2) as [sym2|]; [destruct (is_function sym2)|] | |];
    try discriminate Hmissing; reflexivity.
Qed.

(** A successful resolution asked for both symbols and found both usable. *)
Lemma lookup_codec_success (inf : Inferior) (elementTy entryTy : TemplateArg gdbType)
    (entryExTy refTy : gdbType) (tr tr' : Trace) (fns : Value * Value) :
  _lookup_entry_ref_codec_functions inf elementTy entryTy entryExTy refTy tr
    = (inr fns, tr') →
  ∃ text,
    _get_entry_extractor_typename entryExTy = inr text
    ∧ let cls := "csg::detail::entry_ref_codec<" ++ str_targ entryTy ++ ", "
                   ++ str_targ elementTy ++ ", " ++ text ++ ">" in
      let s1 := cls ++ "::get_entry(" ++ text ++ " &, " ++ type_str refTy ++ ")" in
      let s2 := cls ++ "::get_value(" ++ type_str refTy ++ ")" in
      tr' = (tr ++ [EvLookupSymbol s1; EvLookupSymbol s2])%list
      ∧ usable inf s1 = true ∧ usable inf s2 = true.
Proof.
  intros Hl.
  destruct (_get_entry_extractor_typename entryExTy) as [e|text] eqn:Htext.
  { unfold _lookup_entry_ref_codec_functions in Hl.
    rewrite lift_bind, Htext in Hl. discriminate Hl. }
  exists text. split; [reflexivity|]. intros cls s1 s2.
  rewrite (lookup_codec_run inf elementTy entryTy entryExTy refTy tr text Htext) in Hl.
  cbv zeta in Hl. fold cls in Hl.
  change (cls ++ "::" ++ "get_entry(" ++ text ++ " &, " ++ type_str refTy ++ ")")
    with s1 in Hl.
  change (cls ++ "::" ++ "get_value(" ++ type_str refTy ++ ")") with s2 in Hl.
  unfold usable.
  destruct (symtab inf s1) as [sym1|]; [destruct (is_function sym1)|];
    [destruct (symtab inf s2) as [sym2|]; [destruct (is_function sym2)|] | |];
    try discriminate Hl.
  injection Hl as _ <-. auto.
Qed.

Lemma get_entry_extractor_typename_plain (ty : gdbType) (c : ascii) (n : string) :
  name (strip_typedefs ty) = Some (String c n) → c ≠ "<"%char →
  span_not_lt (String c n) ≠ "csg::offset_extractor" →
  _get_entry_extractor_typename ty = inr (String c n).
Proof.
  intros Hname Hc Hne. unfold _get_entry_extractor_typename.
  rewrite Hname. cbn [of_name]. rewrite remove_generics_cons by assumption.
  rewrite Res_bind_unfold.
  apply String.eqb_neq in Hne. rewrite Hne. reflexivity.
Qed.

Lemma get_entry_extractor_typename_offset (ty : gdbType) (c : ascii) (n : string)
    (a0 a1 : TemplateArg gdbType) (oty : gdbType) (V : Z) (text : string)
    (more : list (TemplateArg gdbType)) :
  name (strip_typedefs ty) = Some (String c n) → c ≠ "<"%char →
  span_not_lt (String c n) = "csg::offset_extractor" →
  template_arguments (strip_typedefs ty)
    = a0 :: a1 :: TArgValue oty V text :: more →
  _get_entry_extractor_typename ty =
    inr ("csg::offset_extractor<" ++ str_targ a0 ++ ", " ++ str_targ a1 ++ ", "
           ++ fixedOffset (name oty) text ++ ">").
Proof.
  intros Hname Hc Heq Hargs. unfold _get_entry_extractor_typename.
  rewrite Hname. cbn [of_name]. rewrite remove_generics_cons by assumption.
  rewrite Res_bind_unfold, Heq. cbn [String.eqb Ascii.eqb Bool.eqb negb].
  unfold template_argument. rewrite Hargs. reflexivity.
Qed.

(** C3: with the extractor's typedef-stripped name [String c n] (not
    beginning with ['<']): when its normalized form is not
    [csg::offset_extractor] the extractor text is that name as it is; when it
    is, the text is rebuilt from template arguments 0 and 1 and the
    suffix-encoded argument 2 ([text] being [str] of that constant).  With
    the extractor text [text], the resolver asks the
    symbol table for
    [csg::detail::entry_ref_codec<Entry, Element, text>::get_entry(text &, Ref)]
    and then for [...::get_value(Ref)], for nothing else, and on success
    returns the values of exactly these two symbols. *)
Theorem codec_resolver_names
    (inf : Inferior) (elementTy entryTy : TemplateArg gdbType)
    (entryExTy refTy : gdbType) (tr : Trace) (c : ascii) (n : string) :
  name (strip_typedefs entryExTy) = Some (String c n) → c ≠ "<"%char →
  (span_not_lt (String c n) ≠ "csg::offset_extractor" →
     _get_entry_extractor_typename entryExTy = inr (String c n))
  ∧ (span_not_lt (String c n) = "csg::offset_extractor" →
     ∀ a0 a1 oty V text more,
       template_arguments (strip_typedefs entryExTy)
         = a0 :: a1 :: TArgValue oty V text :: more →
       _get_entry_extractor_typename entryExTy =
         inr ("csg::offset_extractor<" ++ str_targ a0 ++ ", " ++ str_targ a1
                ++ ", " ++ fixedOffset (name oty) text ++ ">"))
  ∧ (∀ text, _get_entry_extractor_typename entryExTy = inr text →
     let cls := "csg::detail::entry_ref_codec<" ++ str_targ entryTy ++ ", "
                  ++ str_targ elementTy ++ ", " ++ text ++ ">" in
     let s1 := cls ++ "::get_entry(" ++ text ++ " &, " ++ type_str refTy ++ ")" in
     let s2 := cls ++ "::get_value(" ++ type_str refTy ++ ")" in
     let out := _lookup_entry_ref_codec_functions inf elementTy entryTy
                  entryExTy refTy tr in
     (snd out = (tr ++ [EvLookupSymbol s1])%list
      ∨ snd out = (tr ++ [EvLookupSymbol s1; EvLookupSymbol s2])%list)
     ∧ (usable inf s1 && usable inf s2 = true ↔ ∃ fns, fst out = inr fns)
     ∧ (∀ fns, fst out = inr fns →
          snd out = (tr ++ [EvLookupSymbol s1; EvLookupSymbol s2])%list
          ∧ ∃ sym1 sym2, symtab inf s1 = Some sym1 ∧ symtab inf s2 = Some sym2
              ∧ fns = (symbol_value sym1, symbol_value sym2))).
Proof.
  intros Hname Hc.
  split; [by apply get_entry_extractor_typename_plain|].
  split; [intros; by eapply get_entry_extractor_typename_offset|].
  intros text Htext cls s1 s2 out. subst out.
  rewrite (lookup_codec_run inf elementTy entryTy entryExTy refTy tr text Htext).
  cbv zeta. fold cls.
  change (cls ++ "::" ++ "get_entry(" ++ text ++ " &, " ++ type_str refTy ++ ")")
    with s1.
  change (cls ++ "::" ++ "get_value(" ++ type_str refTy ++ ")") with s2.
  unfold usable.
  destruct (symtab inf s1) as [sym1|]; [destruct (is_function sym1)|];
    [destruct (symtab inf s2) as [sym2|]; [destruct (is_function sym2)|] | |];
    cbn [fst snd andb];
    (split; [eauto|]);
    (split; [split; [try discriminate; eauto | intros [fns Hf]; try discriminate Hf; reflexivity]|]);
    intros fns Hf; try discriminate Hf.
  injection Hf as <-. eauto 6.
Qed.

Lemma codec_resolver_names_witness :
  _get_entry_extractor_typename (Fixture.extractor_ty "slist")
    = inr "csg::offset_extractor<csg::slist_entry<int>, int, 8ul>"
  ∧ _get_entry_extractor_typename Fixture.int_ty = inr "int"
  ∧ snd (_lookup_entry_ref_codec_functions Fixture.slist_inferior
           (TArgType Fixture.int_ty) (TArgType (Fixture.entry_decl "slist"))
           (Fixture.extractor_ty "slist") (Fixture.ref_ty "slist") [])
    = [EvLookupSymbol (Fixture.get_entry_sym "slist");
       EvLookupSymbol (Fixture.get_value_sym "slist")].
Proof.
  pose proof (codec_resolver_names Fixture.slist_inferior
                (TArgType Fixture.int_ty) (TArgType (Fixture.entry_decl "slist"))
                (Fixture.extractor_ty "slist") (Fixture.ref_ty "slist") []
                "c" "sg::offset_extractor<csg::slist_entry<int>, int, 8>"
                eq_refl ltac:(discriminate)) as (_ & Hoffset & Hlookup).
  pose proof (codec_resolver_names Fixture.slist_inferior
                (TArgType Fixture.int_ty) (TArgType (Fixture.entry_decl "slist"))
                Fixture.int_ty (Fixture.ref_ty "slist") []
                "i" "nt" eq_refl ltac:(discriminate)) as (Hplain & _ & _).
  pose proof (Hoffset eq_refl _ _ _ _ _ _ eq_refl) as Htext.
  split; [exact Htext|].
  split; [apply Hplain; discriminate|].
  destruct (Hlookup _ Htext) as (_ & Husable & Hfns).
  destruct (proj1 Husable eq_refl) as [fns Hf].
  exact (proj1 (Hfns fns Hf)).
Defined.

(** C5: when the extractor text is computed and one of the two accessor
    symbols is absent from the symbol table or is not a function, the
    resolver raises the exception naming the first such symbol; no handles
    are returned.  Each symbol is asked for once, in order, and nothing is
    asked after the failing one; whatever would follow the resolution (the
    rest of the decoding of the value) is not run. *)
Theorem codec_resolution_failure
    (inf : Inferior) (elementTy entryTy : TemplateArg gdbType)
    (entryExTy refTy : gdbType) (tr : Trace) (text : string) :
  _get_entry_extractor_typename entryExTy = inr text →
  let cls := "csg::detail::entry_ref_codec<" ++ str_targ entryTy ++ ", "
               ++ str_targ elementTy ++ ", " ++ text ++ ">" in
  let s1 := cls ++ "::get_entry(" ++ text ++ " &, " ++ type_str refTy ++ ")" in
  let s2 := cls ++ "::get_value(" ++ type_str refTy ++ ")" in
  usable inf s1 && usable inf s2 = false →
  let failing := if usable inf s1 then s2 else s1 in
  let asked := if usable inf s1 then [EvLookupSymbol s1; EvLookupSymbol s2]
               else [EvLookupSymbol s1] in
  let failure :=
    Exception ("required symbol " ++ failing ++ " does not exist or is not a function") in
  _lookup_entry_ref_codec_functions inf elementTy entryTy entryExTy refTy tr
    = (inl failure, (tr ++ asked)%list)
  ∧ ∀ (B : Type) (rest : Value * Value → M Trace B),
      (_lookup_entry_ref_codec_functions inf elementTy entryTy entryExTy refTy
         ≫= rest) tr = (inl failure, (tr ++ asked)%list).
Proof.
  intros Htext cls s1 s2 Hmissing failing asked failure.
  pose proof (lookup_codec_missing inf elementTy entryTy entryExTy refTy tr text
                Htext Hmissing) as Hrun.
  split; [exact Hrun|].
  intros B rest. rewrite M_bind_unfold, Hrun. reflexivity.
Qed.

Lemma codec_resolution_failure_witness :
  _lookup_entry_ref_codec_functions (Fixture.stripped_inferior "slist" 0 [])
    (TArgType Fixture.int_ty) (TArgType (Fixture.entry_decl "slist"))
    (Fixture.extractor_ty "slist") (Fixture.ref_ty "slist") []
  = (inl (Exception ("required symbol " ++ Fixture.get_entry_sym "slist"
                       ++ " does not exist or is not a function")),
     [EvLookupSymbol (Fixture.get_entry_sym "slist")]).
Proof.
  exact (proj1 (codec_resolution_failure (Fixture.stripped_inferior "slist" 0 [])
                  (TArgType Fixture.int_ty) (TArgType (Fixture.entry_decl "slist"))
                  (Fixture.extractor_ty "slist") (Fixture.ref_ty "slist") []
                  "csg::offset_extractor<csg::slist_entry<int>, int, 8ul>"
                  eq_refl eq_refl)).
Defined.

(** ** ListWalker: the iterator *)

Module Import Walk.
Import ListPrinter.ListIterator.

Lemma next_unfold (inf : Inferior) (it : t) (tr : Trace) :
  __next__ inf (it, tr) =
    let it1 := set_count it (count it + 1) in
    match ref_address (nextEntryRef it) with
    | inl e => (inl e, (it1, tr))
    | inr a =>
        if a =? stopEntryRefValue it then (inl StopIteration, (it1, tr))
        else
          (p ← on_snd (call inf (getValueFn it) [nextEntryRef it]);
           item ← on_snd (referenced_value inf p);
           q ← on_snd (call inf (getEntryFn it) [entryEx it; nextEntryRef it]);
           curEntry ← on_snd (dereference inf q);
           next ← lift (getitem curEntry "next");
           self_update (λ self, set_nextEntryRef self next);;
           self ← self_get;
           mret ("[" ++ str_int (count self) ++ "]", item)) (it1, tr)
    end.
Proof.
  unfold __next__. rewrite M_bind_unfold. cbn [self_update fst snd].
  rewrite M_bind_unfold. cbn [self_get fst snd].
  rewrite lift_bind. unfold isFinished. rewrite Res_bind_unfold.
  cbn [set_count nextEntryRef stopEntryRefValue].
  destruct (ref_address (nextEntryRef it)) as [e|a]; [reflexivity|].
  cbn [mret Res_ret]. destruct (a =? stopEntryRefValue it); reflexivity.
Qed.

Lemma next_finished (inf : Inferior) (it : t) (tr : Trace) :
  ref_address (nextEntryRef it) = inr (stopEntryRefValue it) →
  __next__ inf (it, tr) = (inl StopIteration, (set_count it (count it + 1), tr)).
Proof.
  intros H. rewrite next_unfold, H. cbv zeta. by rewrite Z.eqb_refl.
Qed.

Lemma next_entry (inf : Inferior) (it : t) (tr : Trace) (a : Z) (item next : Value) :
  ref_address (nextEntryRef it) = inr a → a ≠ stopEntryRefValue it →
  element_at inf it (nextEntryRef it) = Some item →
  successor inf it (nextEntryRef it) = Some next →
  ∃ evs,
    __next__ inf (it, tr) =
      (inr ("[" ++ str_int (count it + 1) ++ "]", item),
       (mk next (entryEx it) (getEntryFn it) (getValueFn it) (count it + 1)
           (stopEntryRefValue it), (tr ++ evs)%list))
    ∧ List.filter is_call evs =
        (call_event (getValueFn it) [nextEntryRef it]
           ++ call_event (getEntryFn it) [entryEx it; nextEntryRef it])%list.
Proof.
  intros Ha Hne Helem Hsucc.
  rewrite next_unfold, Ha. cbv zeta.
  apply Z.eqb_neq in Hne. rewrite Hne.
  unfold element_at, accessor, target_of in Helem.
  unfold successor, entry_at, accessor, target_of, is_pointer in Hsucc.
  destruct (getValueFn it) as [| | |tyv gv] eqn:Hgv; try discriminate Helem.
  destruct (call_function inf gv [nextEntryRef it]) as [p|] eqn:Hp;
    [|discriminate Helem].
  cbn in Helem. destruct p as [|pty paddr pa| |]; try discriminate Helem.
  destruct (getEntryFn it) as [| | |tyg ge] eqn:Hge; try discriminate Hsucc.
  destruct (call_function inf ge [entryEx it; nextEntryRef it]) as [q|] eqn:Hq;
    [|discriminate Hsucc].
  cbn in Hsucc. destruct q as [|qty qaddr qa| |]; try discriminate Hsucc.
  destruct (TypeCode_eqb (code (strip_typedefs qty)) TYPE_CODE_REF) eqn:Hcode;
    [discriminate Hsucc|].
  cbn in Hsucc. destruct (memory inf qa) as [curEntry|] eqn:Hmq;
    [|discriminate Hsucc].
  cbn in Hsucc. destruct (getitem curEntry "next") as [|nxt] eqn:Hnext;
    [discriminate Hsucc|].
  injection Hsucc as ->.
  exists [EvCall gv [nextEntryRef it]; EvReadMemory pa;
          EvCall ge [entryEx it; nextEntryRef it]; EvReadMemory qa].
  split; [|reflexivity].
  rewrite on_snd_bind, call_run, Hp. cbn [from_option].
  rewrite on_snd_bind. cbn [referenced_value]. rewrite read_target_run, Helem.
  cbn [from_option].
  rewrite on_snd_bind, call_run, Hq. cbn [from_option].
  rewrite on_snd_bind. cbn [dereference]. rewrite Hcode, read_target_run, Hmq.
  cbn [from_option].
  rewrite lift_bind, Hnext.
  rewrite M_bind_unfold. cbn [self_update fst snd].
  rewrite M_bind_unfold. cbn [self_get fst snd mret M_ret].
  unfold set_nextEntryRef, set_count.
  cbn [nextEntryRef entryEx getEntryFn getValueFn count stopEntryRefValue].
  rewrite Hgv, Hge, <- !app_assoc. reflexivity.
Qed.

Lemma from_option_not_stop {A} (e0 : PyExc) (o : option A) :
  e0 ≠ StopIteration → from_option e0 o ≠ inl StopIteration.
Proof. intros H. destruct o; cbn; congruence. Qed.

Lemma getitem_not_stop (v : Value) (f : string) : getitem v f ≠ inl StopIteration.
Proof.
  destruct v; cbn; try (unfold throw; congruence).
  by apply from_option_not_stop.
Qed.

Lemma call_not_stop (inf : Inferior) (fn : Value) (args : list Value) (tr : Trace) :
  fst (call inf fn args tr) ≠ inl StopIteration.
Proof.
  destruct fn; try (cbn; unfold throw; congruence).
  rewrite call_run. cbn [fst]. by apply from_option_not_stop.
Qed.

Lemma read_target_not_stop (inf : Inferior) (a : Z) (tr : Trace) :
  fst (read_target inf a tr) ≠ inl StopIteration.
Proof. rewrite read_target_run. cbn [fst]. by apply from_option_not_stop. Qed.

Lemma referenced_value_not_stop (inf : Inferior) (v : Value) (tr : Trace) :
  fst (referenced_value inf v tr) ≠ inl StopIteration.
Proof.
  destruct v; try (cbn; unfold throw; congruence). apply read_target_not_stop.
Qed.

Lemma dereference_not_stop (inf : Inferior) (v : Value) (tr : Trace) :
  fst (dereference inf v tr) ≠ inl StopIteration.
Proof.
  destruct v as [|ty ad a| |]; try (cbn; unfold throw; congruence).
  cbn [dereference]. destruct (TypeCode_eqb _ _); [|apply read_target_not_stop].
  rewrite M_bind_unfold.
  pose proof (read_target_not_stop inf a tr) as H1.
  destruct (read_target inf a tr) as [[e|r] t]; [cbn in H1 |- *; exact H1|].
  destruct r; try (cbn; unfold throw; congruence). apply read_target_not_stop.
Qed.

(** [StopIteration] comes out of [__next__] exactly when the current
    reference's address equals the stop value. *)
Lemma next_stop_iff (inf : Inferior) (it : t) (tr : Trace) (a : Z) :
  ref_address (nextEntryRef it) = inr a →
  fst (__next__ inf (it, tr)) = inl StopIteration ↔ a = stopEntryRefValue it.
Proof.
  intros Ha. split.
  - rewrite next_unfold, Ha. cbv zeta.
    destruct (Z.eqb_spec a (stopEntryRefValue it)) as [|Hne]; [done|].
    intros H. exfalso. revert H.
    rewrite on_snd_bind.
    pose proof (call_not_stop inf (getValueFn it) [nextEntryRef it] tr) as H1.
    destruct (call inf (getValueFn it) [nextEntryRef it] tr) as [[e|p] t1];
      [cbn in H1 |- *; intros [= ->]; exact (H1 eq_refl)|clear H1].
    rewrite on_snd_bind.
    pose proof (referenced_value_not_stop inf p t1) as H2.
    destruct (referenced_value inf p t1) as [[e|item] t2]; [cbn in H2 |- *; intros [= ->]; exact (H2 eq_refl)|clear H2].
    rewrite on_snd_bind.
    pose proof (call_not_stop inf (getEntryFn it) [entryEx it; nextEntryRef it] t2)
      as H3.
    destruct (call inf (getEntryFn it) [entryEx it; nextEntryRef it] t2)
      as [[e|q] t3]; [cbn in H3 |- *; intros [= ->]; exact (H3 eq_refl)|clear H3].
    rewrite on_snd_bind.
    pose proof (dereference_not_stop inf q t3) as H4.
    destruct (dereference inf q t3) as [[e|curEntry] t4]; [cbn in H4 |- *; intros [= ->]; exact (H4 eq_refl)|clear H4].
    rewrite lift_bind.
    pose proof (getitem_not_stop curEntry "next") as H5.
    destruct (getitem curEntry "next") as [e|next]; [cbn; congruence|].
    cbn. discriminate.
  - intros ->. by rewrite next_finished.
Qed.

Lemma pull_all_S (inf : Inferior) (fuel : nat) (s : t * Trace) :
  pull_all inf (S fuel) s =
    match __next__ inf s with
    | (inr item, s') =>
        match pull_all inf fuel s' with
        | Some (items, e, s'') => Some (item :: items, e, s'')
        | None => None
        end
    | (inl StopIteration, s') => Some ([], None, s')
    | (inl e, s') => Some ([], Some e, s')
    end.
Proof. reflexivity. Qed.

Lemma pull_chain (inf : Inferior) (it : t) (ref : Value) (entries : list (Value * Value)) :
  chain inf it ref entries →
  ∀ (c : Z) (tr : Trace),
    let start := mk ref (entryEx it) (getEntryFn it) (getValueFn it) c
                    (stopEntryRefValue it) in
    ∃ final evs,
      pull_all inf (S (length entries)) (start, tr)
        = Some (labelled c entries, None, (final, (tr ++ evs)%list))
      ∧ (∀ fuel, (fuel ≤ length entries)%nat → pull_all inf fuel (start, tr) = None)
      ∧ isFinished final = inr true
      ∧ List.filter is_call evs = expected_calls it entries.
Proof.
  induction 1 as [ref Hstop | ref a item next rest Ha Hne Helem Hsucc Hchain IH];
    intros c tr; cbv zeta.
  - exists (mk ref (entryEx it) (getEntryFn it) (getValueFn it) (c + 1)
               (stopEntryRefValue it)), [].
    split; [|split; [|split]].
    + rewrite pull_all_S, next_finished by exact Hstop.
      by rewrite app_nil_r.
    + intros fuel Hfuel. cbn [length] in Hfuel. by replace fuel with 0%nat by lia.
    + unfold isFinished. cbn [nextEntryRef stopEntryRefValue].
      rewrite Hstop. cbn. by rewrite Z.eqb_refl.
    + reflexivity.
  - destruct (next_entry inf
                (mk ref (entryEx it) (getEntryFn it) (getValueFn it) c
                    (stopEntryRefValue it)) tr a item next Ha Hne Helem Hsucc)
      as (evs1 & Hnext & Hcalls1).
    cbn [nextEntryRef entryEx getEntryFn getValueFn count stopEntryRefValue]
      in Hnext, Hcalls1.
    destruct (IH (c + 1) (tr ++ evs1)%list)
      as (final & evs2 & Hpull & Hshort & Hfin & Hcalls2).
    exists final, (evs1 ++ evs2)%list. split; [|split; [|split]].
    + cbn [length]. rewrite pull_all_S, Hnext. cbv beta iota.
      rewrite Hpull. cbn [labelled]. by rewrite app_assoc.
    + intros [|fuel] Hfuel; [reflexivity|]. cbn [length] in Hfuel.
      rewrite pull_all_S, Hnext. cbv beta iota.
      rewrite Hshort by lia. reflexivity.
    + exact Hfin.
    + rewrite List.filter_app, Hcalls1, Hcalls2. reflexivity.
Qed.

Lemma labelled_imap (c : Z) (entries : list (Value * Value)) :
  labelled c entries =
    imap (λ i e, ("[" ++ str_int (c + Z.of_nat (S i)) ++ "]", snd e)) entries.
Proof.
  revert c. induction entries as [|[ref item] rest IH]; intros c; [reflexivity|].
  cbn [labelled]. rewrite imap_cons. cbn [snd]. f_equal.
  rewrite IH. apply imap_ext. intros i e _. unfold compose.
  replace (c + 1 + Z.of_nat (S i)) with (c + Z.of_nat (S (S i))) by lia.
  reflexivity.
Qed.

End Walk.

(** C2: let the entries reachable from the first reference before the stop
    reference be [entries] (each with the reference leading to it and the
    element [get_value] designates there, the next reference being the
    [next] member of what [get_entry] designates).  Then pulling a fresh
    iterator to its end yields one pair per entry, in order, labelled
    [1], [2], ..., and no more; fewer pulls than entries do not reach the
    end; the iterator ends finished; and the accessor calls made are, per
    entry and in this order, [get_value(ref)] then [get_entry(extractor, ref)]. *)
Theorem list_walk_yields_entries
    (inf : Inferior) (it : ListPrinter.ListIterator.t)
    (entries : list (Value * Value)) (tr : Trace) :
  ListPrinter.ListIterator.count it = 0 →
  chain inf it (ListPrinter.ListIterator.nextEntryRef it) entries →
  ∃ final evs,
    ListPrinter.ListIterator.pull_all inf (S (length entries)) (it, tr)
      = Some (imap (λ i e, ("[" ++ str_int (Z.of_nat (S i)) ++ "]", snd e)) entries,
              None, (final, (tr ++ evs)%list))
    ∧ (∀ fuel, (fuel ≤ length entries)%nat →
         ListPrinter.ListIterator.pull_all inf fuel (it, tr) = None)
    ∧ ListPrinter.ListIterator.isFinished final = inr true
    ∧ List.filter is_call evs = expected_calls it entries.
Proof.
  intros Hcount Hchain.
  destruct (pull_chain inf it _ entries Hchain 0 tr) as (final & evs & H).
  rewrite labelled_imap in H.
  destruct it as [ref ex ge gv c stop]. cbn in Hcount. subst c.
  exists final, evs. exact H.
Qed.

Lemma slist_chain :
  chain Fixture.slist_inferior slist_iterator (Fixture.ref "slist" 4096) slist_entries.
Proof.
  unfold slist_entries.
  eapply chain_entry with (a := 4096) (next := Fixture.ref "slist" 8192);
    [reflexivity | discriminate | vm_compute; reflexivity | vm_compute; reflexivity |].
  eapply chain_entry with (a := 8192) (next := Fixture.ref "slist" 12288);
    [reflexivity | discriminate | vm_compute; reflexivity | vm_compute; reflexivity |].
  eapply chain_entry with (a := 12288) (next := Fixture.ref "slist" 0);
    [reflexivity | discriminate | vm_compute; reflexivity | vm_compute; reflexivity |].
  apply chain_stop. reflexivity.
Defined.

Lemma list_walk_yields_entries_witness :
  ∃ final evs,
    ListPrinter.ListIterator.pull_all Fixture.slist_inferior 4 (slist_iterator, [])
      = Some ([("[1]", VInt Fixture.int_ty (Some 4104) 10);
               ("[2]", VInt Fixture.int_ty (Some 8200) 20);
               ("[3]", VInt Fixture.int_ty (Some 12296) 30)],
              None, (final, evs))
    ∧ ListPrinter.ListIterator.pull_all Fixture.slist_inferior 3 (slist_iterator, [])
      = None
    ∧ List.filter is_call evs =
        [EvCall (Fixture.get_value_sym "slist") [Fixture.ref "slist" 4096];
         EvCall (Fixture.get_entry_sym "slist")
           [Fixture.extractor "slist"; Fixture.ref "slist" 4096];
         EvCall (Fixture.get_value_sym "slist") [Fixture.ref "slist" 8192];
         EvCall (Fixture.get_entry_sym "slist")
           [Fixture.extractor "slist"; Fixture.ref "slist" 8192];
         EvCall (Fixture.get_value_sym "slist") [Fixture.ref "slist" 12288];
         EvCall (Fixture.get_entry_sym "slist")
           [Fixture.extractor "slist"; Fixture.ref "slist" 12288]].
Proof.
  destruct (list_walk_yields_entries Fixture.slist_inferior slist_iterator
              slist_entries [] eq_refl slist_chain)
    as (final & evs & Hpull & Hshort & _ & Hcalls).
  exists final, evs.
  split; [exact Hpull|]. split; [apply Hshort; apply le_n | exact Hcalls].
Defined.

(** End to end, through the dispatcher: the list of 10, 20, 30 and the tail
    queue of 7, 9 whose last entry links back to the sentinel at 264. *)
Example print_slist :
  Fixture.print_list Fixture.slist_inferior (Fixture.head "slist" 4096) 4
    = Some ([("[1]", inr 10); ("[2]", inr 20); ("[3]", inr 30)], None)
  ∧ Fixture.print_list Fixture.slist_inferior (Fixture.head "slist" 4096) 3 = None.
Proof. split; vm_compute; reflexivity. Qed.

Example print_tailq :
  Fixture.print_list Fixture.tailq_inferior (Fixture.head "tailq" 4096) 3
    = Some ([("[1]", inr 7); ("[2]", inr 9)], None)
  ∧ Fixture.print_list Fixture.tailq_inferior (Fixture.head "tailq" 4096) 2 = None.
Proof. split; vm_compute; reflexivity. Qed.

(** ** ListWalker: the setup *)

Module Import Setup.

Lemma init_phases (inf : Inferior) (value : Value) (tr : Trace) :
  ListPrinter.__init__ inf value tr =
    match before_head value with
    | inl e => (inl e, tr)
    | inr (entryEx, listTyName, fwdHead0) =>
        let isProxy := endswith listTyName "_proxy" in
        let isTailQ := startswith listTyName "tailq_" in
        match resolve_head inf isProxy fwdHead0 tr with
        | (inl e, tr1) => (inl e, tr1)
        | (inr fwdHead, tr1) =>
            match after_head value isTailQ fwdHead with
            | inl e => (inl e, tr1)
            | inr (stop, firstEntryRef, elementTy, entryTy) =>
                let entryExTy := strip_typedefs (type_of entryEx) in
                match _lookup_entry_ref_codec_functions inf elementTy entryTy
                        entryExTy (type_of firstEntryRef) tr1 with
                | (inl e, tr2) => (inl e, tr2)
                | (inr fns, tr2) =>
                    (inr (ListPrinter.mk value entryEx listTyName isProxy isTailQ
                            fwdHead elementTy entryTy entryExTy
                            (ListPrinter.ListIterator.__init__ firstEntryRef entryEx
                               (fst fns) (snd fns) stop)), tr2)
                end
            end
        end
    end.
Proof.
  unfold ListPrinter.__init__, before_head, after_head, element_type_of, resolve_head.
  res_steps.
  destruct (getitem value "m_entryExtractor") as [e|entryEx]; [reflexivity|].
  res_steps.
  destruct (_remove_generics _) as [e|q]; [reflexivity|].
  destruct (startswith q "csg::"); cbn [negb]; [|reflexivity].
  cbv zeta. res_steps.
  destruct (getitem value "m_head") as [e|fwdHead0]; [reflexivity|].
  cbn [mret Res_ret]. rewrite M_bind_unfold.
  destruct ((if endswith (slice_from 5 q) "_proxy"
             then referenced_value inf fwdHead0 else mret fwdHead0) tr)
    as [[e|fwdHead] tr1]; [reflexivity|].
  res_steps.
  destruct (getitem fwdHead _) as [e|listHeadEntry]; [reflexivity|].
  res_steps.
  destruct (if startswith (slice_from 5 q) "tailq_" then _ else _) as [e|stop];
    [reflexivity|].
  res_steps.
  destruct (getitem listHeadEntry "next") as [e|firstEntryRef]; [reflexivity|].
  res_steps.
  destruct (fields_of (type_of value)) as [e|flds]; [reflexivity|].
  res_steps.
  destruct (from_option IndexError _) as [e|baseCls]; [reflexivity|].
  res_steps.
  destruct (template_argument baseCls 0) as [e|elementTy]; [reflexivity|].
  res_steps.
  destruct (template_argument (type_of firstEntryRef) 0) as [e|entryTy];
    [reflexivity|].
  cbn [mret Res_ret]. rewrite M_bind_unfold.
  destruct (_lookup_entry_ref_codec_functions _ _ _ _ _ _) as [[e|fns] tr2];
    reflexivity.
Qed.

Lemma startswith_csg (q : string) :
  startswith q "csg::" = true → q = "csg::" ++ slice_from 5 q.
Proof.
  unfold startswith.
  destruct q as [|c1 [|c2 [|c3 [|c4 [|c5 q]]]]]; cbn [String.prefix];
    repeat (destruct (ascii_dec _ _) as [<-|]; try discriminate);
    try discriminate.
  reflexivity.
Qed.

Lemma before_head_inv (value entryEx fwdHead0 : Value) (listTyName : string) :
  before_head value = inr (entryEx, listTyName, fwdHead0) →
  getitem value "m_entryExtractor" = inr entryEx
  ∧ _remove_generics (ArgType (strip_typedefs (type_of value)))
      = inr ("csg::" ++ listTyName)
  ∧ getitem value "m_head" = inr fwdHead0.
Proof.
  unfold before_head. res_steps.
  destruct (getitem value "m_entryExtractor") as [e|ex]; [discriminate|].
  res_steps.
  destruct (_remove_generics _) as [e|q]; [discriminate|].
  destruct (startswith q "csg::") eqn:Hq; cbn [negb]; [|discriminate].
  res_steps.
  destruct (getitem value "m_head") as [e|fwd]; [discriminate|].
  intros [= -> <- ->]. split; [reflexivity|]. split; [|reflexivity].
  f_equal. by apply startswith_csg.
Qed.

Lemma after_head_inv (value fwdHead : Value) (isTailQ : bool) (stop : Z)
    (firstEntryRef : Value) (elementTy entryTy : TemplateArg gdbType) :
  after_head value isTailQ fwdHead = inr (stop, firstEntryRef, elementTy, entryTy) →
  ∃ listHeadEntry,
    getitem fwdHead (if isTailQ then "m_endEntry" else "m_headEntry")
      = inr listHeadEntry
    ∧ (if isTailQ then int_of_address listHeadEntry else inr 0) = inr stop
    ∧ getitem listHeadEntry "next" = inr firstEntryRef
    ∧ element_type_of value = inr elementTy
    ∧ template_argument (type_of firstEntryRef) 0 = inr entryTy.
Proof.
  unfold after_head. res_steps.
  destruct (getitem fwdHead _) as [e|listHeadEntry] eqn:Hhead; [discriminate|].
  res_steps.
  destruct (if isTailQ then int_of_address listHeadEntry else mret 0)
    as [e|stop'] eqn:Hstop; [discriminate|].
  res_steps.
  destruct (getitem listHeadEntry "next") as [e|first] eqn:Hfirst; [discriminate|].
  res_steps.
  destruct (element_type_of value) as [e|eT] eqn:HeT; [discriminate|].
  res_steps.
  destruct (template_argument (type_of first) 0) as [e|nT] eqn:HnT; [discriminate|].
  intros [= <- <- <- <-]. exists listHeadEntry.
  split; [reflexivity|]. split; [exact Hstop|]. split; [exact Hfirst|].
  split; [reflexivity | exact HnT].
Qed.

Lemma init_inv (inf : Inferior) (value : Value) (tr tr' : Trace) (p : ListPrinter.t) :
  ListPrinter.__init__ inf value tr = (inr p, tr') →
  ∃ entryEx listTyName fwdHead0 fwdHead tr1 stop firstEntryRef elementTy entryTy fns,
    before_head value = inr (entryEx, listTyName, fwdHead0)
    ∧ resolve_head inf (endswith listTyName "_proxy") fwdHead0 tr = (inr fwdHead, tr1)
    ∧ after_head value (startswith listTyName "tailq_") fwdHead
        = inr (stop, firstEntryRef, elementTy, entryTy)
    ∧ _lookup_entry_ref_codec_functions inf elementTy entryTy
        (strip_typedefs (type_of entryEx)) (type_of firstEntryRef) tr1
        = (inr fns, tr')
    ∧ p = ListPrinter.mk value entryEx listTyName (endswith listTyName "_proxy")
            (startswith listTyName "tailq_") fwdHead elementTy entryTy
            (strip_typedefs (type_of entryEx))
            (ListPrinter.ListIterator.__init__ firstEntryRef entryEx
               (fst fns) (snd fns) stop).
Proof.
  rewrite init_phases.
  destruct (before_head value) as [e|[[entryEx listTyName] fwdHead0]];
    [discriminate|].
  cbv zeta.
  destruct (resolve_head inf _ fwdHead0 tr) as [[e|fwdHead] tr1] eqn:Hr;
    [discriminate|].
  destruct (after_head value _ fwdHead) as [e|[[[stop first] eT] nT]] eqn:Ha;
    [discriminate|].
  destruct (_lookup_entry_ref_codec_functions _ _ _ _ _ _) as [[e|fns] tr2] eqn:Hl;
    [discriminate|].
  intros [= <- <-].
  exists entryEx, listTyName, fwdHead0, fwdHead, tr1, stop, first, eT, nT, fns.
  repeat split; assumption.
Qed.

(** The resolver appends to the trace, and what it does is the same
    whatever the trace was. *)
Lemma lookup_codec_frame (inf : Inferior) (elementTy entryTy : TemplateArg gdbType)
    (entryExTy refTy : gdbType) :
  ∃ r evs, ∀ tr,
    _lookup_entry_ref_codec_functions inf elementTy entryTy entryExTy refTy tr
      = (r, (tr ++ evs)%list).
Proof.
  destruct (_get_entry_extractor_typename entryExTy) as [e|text] eqn:Htext.
  - exists (inl e), []. intros tr.
    unfold _lookup_entry_ref_codec_functions.
    by rewrite lift_bind, Htext, app_nil_r.
  - pose proof (λ tr, lookup_codec_run inf elementTy entryTy entryExTy refTy tr
                        text Htext) as Hrun.
    cbv zeta in Hrun.
    destruct (symtab inf _) as [sym1|]; [destruct (is_function sym1)|];
      [destruct (symtab inf _) as [sym2|]; [destruct (is_function sym2)|] | |];
      eauto.
Qed.

(** Resolving the head reads target memory only. *)
Lemma resolve_head_ext (inf inf' : Inferior) (isProxy : bool) (v : Value) (tr : Trace) :
  (∀ a, memory inf' a = memory inf a) →
  resolve_head inf' isProxy v tr = resolve_head inf isProxy v tr.
Proof.
  intros Hmem. unfold resolve_head. destruct isProxy; [|reflexivity].
  destruct v; try reflexivity. cbn [referenced_value].
  by rewrite !read_target_run, Hmem.
Qed.

Lemma resolve_head_trace (inf : Inferior) (isProxy : bool) (v w : Value)
    (tr tr1 : Trace) :
  resolve_head inf isProxy v tr = (inr w, tr1) →
  if isProxy then ∃ a, tr1 = (tr ++ [EvReadMemory a])%list ∧ target_of inf v = Some w
  else tr1 = tr ∧ w = v.
Proof.
  unfold resolve_head. destruct isProxy.
  - destruct v as [|ty ad a| |]; try discriminate. cbn [referenced_value].
    rewrite read_target_run. cbn [target_of].
    destruct (memory inf a); cbn [from_option]; [|discriminate].
    intros [= -> <-]. eauto.
  - by intros [= -> ->].
Qed.

Lemma startswith_csg_app (l : string) : startswith ("csg::" ++ l) "csg::" = true.
Proof. unfold startswith. cbn. by destruct l. Qed.

Lemma before_head_run (value entryEx fwdHead0 : Value) (listTyName : string) :
  getitem value "m_entryExtractor" = inr entryEx →
  _remove_generics (ArgType (strip_typedefs (type_of value)))
    = inr ("csg::" ++ listTyName) →
  getitem value "m_head" = inr fwdHead0 →
  before_head value = inr (entryEx, listTyName, fwdHead0).
Proof.
  intros Hex Hq Hhead. unfold before_head.
  rewrite Hex, Res_bind_unfold, Hq, Res_bind_unfold.
  rewrite startswith_csg_app.
  cbn [negb]. rewrite Hhead. reflexivity.
Qed.

Lemma after_head_ext (value value' fwdHead : Value) (isTailQ : bool) :
  element_type_of value = element_type_of value' →
  after_head value isTailQ fwdHead = after_head value' isTailQ fwdHead.
Proof. intros H. unfold after_head. by rewrite H. Qed.

End Setup.

(** C1: when the setup of the walker succeeds on a value, whose normalized
    type name is then [csg::] followed by the flavor name: for the tailq
    flavors the stop value is the address of the sentinel entry [m_endEntry]
    embedded in the (resolved) head, and the first reference is that
    entry's [next]; for the slist and stailq flavors the stop value is 0 and
    the first reference is the [next] of [m_headEntry].  For every iterator,
    [__next__] raises [StopIteration] exactly when the address of the
    current reference equals the stop value; so a list whose first reference
    already has the stop address yields no element at all. *)
Theorem walker_stop_value
    (inf : Inferior) (value : Value) (tr tr' : Trace) (p : ListPrinter.t) :
  ListPrinter.__init__ inf value tr = (inr p, tr') →
  let it := ListPrinter.iterator p in
  _remove_generics (ArgType (strip_typedefs (type_of value)))
    = inr ("csg::" ++ ListPrinter.listTyName p)
  ∧ (ListPrinter.listTyName p = "tailq_head"
     ∨ ListPrinter.listTyName p = "tailq_proxy" →
     ∃ sentinel,
       getitem (ListPrinter.fwdHead p) "m_endEntry" = inr sentinel
       ∧ int_of_address sentinel
           = inr (ListPrinter.ListIterator.stopEntryRefValue it)
       ∧ getitem sentinel "next" = inr (ListPrinter.ListIterator.nextEntryRef it))
  ∧ (ListPrinter.listTyName p = "slist_head"
     ∨ ListPrinter.listTyName p = "slist_proxy"
     ∨ ListPrinter.listTyName p = "stailq_head"
     ∨ ListPrinter.listTyName p = "stailq_proxy" →
     ListPrinter.ListIterator.stopEntryRefValue it = 0
     ∧ ∃ headEntry,
         getitem (ListPrinter.fwdHead p) "m_headEntry" = inr headEntry
         ∧ getitem headEntry "next" = inr (ListPrinter.ListIterator.nextEntryRef it))
  ∧ (∀ (it' : ListPrinter.ListIterator.t) (tr0 : Trace) (a : Z),
       ListPrinter.ListIterator.ref_address
         (ListPrinter.ListIterator.nextEntryRef it') = inr a →
       fst (ListPrinter.ListIterator.__next__ inf (it', tr0)) = inl StopIteration
       ↔ a = ListPrinter.ListIterator.stopEntryRefValue it')
  ∧ (ListPrinter.ListIterator.ref_address
       (ListPrinter.ListIterator.nextEntryRef it)
       = inr (ListPrinter.ListIterator.stopEntryRefValue it) →
     ∀ fuel, ∃ final,
       ListPrinter.ListIterator.pull_all inf (S fuel) (it, tr')
         = Some ([], None, (final, tr'))).
Proof.
  intros Hinit it.
  destruct (init_inv inf value tr tr' p Hinit)
    as (ex & ltn & fwd0 & fwd & tr1 & stop & first & eT & nT & fns
        & Hbefore & Hresolve & Hafter & Hlookup & ->).
  destruct (before_head_inv _ _ _ _ Hbefore) as (_ & Hname & _).
  destruct (after_head_inv _ _ _ _ _ _ _ Hafter)
    as (headEntry & Hhead & Hstop & Hfirst & _ & _).
  subst it. cbn [ListPrinter.iterator ListPrinter.listTyName ListPrinter.fwdHead
                 ListPrinter.ListIterator.__init__
                 ListPrinter.ListIterator.stopEntryRefValue
                 ListPrinter.ListIterator.nextEntryRef].
  split; [exact Hname|].
  split; [|split; [|split]].
  - intros [-> | ->]; exists headEntry; auto.
  - intros [-> | [-> | [-> | ->]]]; (split; [by injection Hstop | eauto]).
  - intros it' tr0 a. apply next_stop_iff.
  - intros Hempty fuel. eexists.
    rewrite pull_all_S, next_finished by exact Hempty. reflexivity.
Qed.

Lemma walker_stop_value_witness :
  match ListPrinter.__init__ (Fixture.inferior "tailq" 264 [])
          (Fixture.head "tailq" 264) [] with
  | (inr p, tr') =>
      ListPrinter.ListIterator.stopEntryRefValue (ListPrinter.iterator p) = 264
      ∧ ∃ final,
          ListPrinter.ListIterator.pull_all (Fixture.inferior "tailq" 264 []) 1
            (ListPrinter.iterator p, tr') = Some ([], None, (final, tr'))
  | (inl _, _) => False
  end.
Proof.
  destruct (ListPrinter.__init__ (Fixture.inferior "tailq" 264 [])
              (Fixture.head "tailq" 264) []) as [[e|p] tr'] eqn:Hinit;
    [vm_compute in Hinit; discriminate Hinit|].
  pose proof (walker_stop_value _ _ _ _ _ Hinit) as (_ & Htailq & _ & _ & Hempty).
  vm_compute in Hinit. injection Hinit as <- <-.
  destruct (Htailq (or_introl eq_refl)) as (sentinel & Hs & Ha & _).
  vm_compute in Hs. injection Hs as <-.
  split; [|apply (Hempty eq_refl 0%nat)].
  exact (eq_sym (f_equal (λ r : Res Z, match r with inr z => z | inl _ => 0 end) Ha)).
Defined.

(** C10: whenever the setup of the walker succeeds on a list value (empty
    or not), it has asked the symbol table for both accessors,
    [get_entry] then [get_value], as the last two requests of the setup, has
    found both usable, and has made no accessor call; and on the same value
    in a debuggee with the same memory where one of the two is absent or not
    a function, the setup raises the resolver's exception, however many
    entries the list has. *)
Theorem list_setup_resolves_codec
    (inf inf' : Inferior) (value : Value) (tr tr' : Trace) (p : ListPrinter.t) :
  ListPrinter.__init__ inf value tr = (inr p, tr') →
  (∀ a, memory inf' a = memory inf a) →
  ∃ text evs,
    _get_entry_extractor_typename (ListPrinter.entryExTy p) = inr text
    ∧ let refTy :=
        type_of (ListPrinter.ListIterator.nextEntryRef (ListPrinter.iterator p)) in
      let cls := "csg::detail::entry_ref_codec<" ++ str_targ (ListPrinter.entryTy p)
                   ++ ", " ++ str_targ (ListPrinter.elementTy p) ++ ", " ++ text
                   ++ ">" in
      let s1 := cls ++ "::get_entry(" ++ text ++ " &, " ++ type_str refTy ++ ")" in
      let s2 := cls ++ "::get_value(" ++ type_str refTy ++ ")" in
      tr' = (tr ++ evs ++ [EvLookupSymbol s1; EvLookupSymbol s2])%list
      ∧ List.filter is_call evs = []
      ∧ usable inf s1 = true ∧ usable inf s2 = true
      ∧ (usable inf' s1 && usable inf' s2 = false →
         ∃ tr'',
           ListPrinter.__init__ inf' value tr
             = (inl (missing_symbol (if usable inf' s1 then s2 else s1)), tr'')
           ∧ List.filter is_call tr'' = List.filter is_call tr).
Proof.
  intros Hinit Hmem.
  destruct (init_inv inf value tr tr' p Hinit)
    as (ex & ltn & fwd0 & fwd & tr1 & stop & first & eT & nT & fns
        & Hbefore & Hresolve & Hafter & Hlookup & ->).
  destruct (lookup_codec_success _ _ _ _ _ _ _ _ Hlookup)
    as (text & Htext & Htr' & Hu1 & Hu2).
  cbn [ListPrinter.entryExTy ListPrinter.entryTy ListPrinter.elementTy
         ListPrinter.iterator ListPrinter.ListIterator.__init__
         ListPrinter.ListIterator.nextEntryRef].
  assert (∃ evs, tr1 = (tr ++ evs)%list ∧ List.filter is_call evs = [])
    as (evs & -> & Hevs).
  { pose proof (resolve_head_trace _ _ _ _ _ _ Hresolve) as Ht.
    destruct (endswith ltn "_proxy").
    - destruct Ht as (a & -> & _). by exists [EvReadMemory a].
    - destruct Ht as [-> _]. exists []. by rewrite app_nil_r. }
  exists text, evs. split; [exact Htext|]. cbv zeta.
  split; [by rewrite Htr', app_assoc|].
  split; [exact Hevs|]. split; [exact Hu1|]. split; [exact Hu2|].
  intros Hmissing. eexists. split.
  - rewrite init_phases, Hbefore. cbv zeta.
    rewrite (resolve_head_ext inf inf') by exact Hmem.
    rewrite Hresolve, Hafter.
    rewrite (lookup_codec_missing inf' eT nT _ _ _ text Htext Hmissing).
    reflexivity.
  - rewrite !List.filter_app, Hevs.
    destruct (usable inf' _); cbn [List.filter is_call]; by rewrite !app_nil_r.
Qed.

Lemma list_setup_resolves_codec_witness :
  ∃ p tr' tr'',
    ListPrinter.__init__ (Fixture.inferior "slist" 0 []) (Fixture.head "slist" 0) []
      = (inr p, tr')
    ∧ ListPrinter.ListIterator.pull_all (Fixture.inferior "slist" 0 []) 1
        (ListPrinter.iterator p, tr') = Some ([], None,
          (ListPrinter.ListIterator.set_count (ListPrinter.iterator p) 1, tr'))
    ∧ ListPrinter.__init__ (Fixture.stripped_inferior "slist" 0 [])
        (Fixture.head "slist" 0) []
      = (inl (missing_symbol (Fixture.get_entry_sym "slist")), tr'').
Proof.
  destruct (ListPrinter.__init__ (Fixture.inferior "slist" 0 [])
              (Fixture.head "slist" 0) []) as [[e|p] tr'] eqn:Hinit;
    [vm_compute in Hinit; discriminate Hinit|].
  destruct (list_setup_resolves_codec (Fixture.inferior "slist" 0 [])
              (Fixture.stripped_inferior "slist" 0 []) _ _ _ _ Hinit
              (λ a, eq_refl))
    as (text & evs & Htext & _ & _ & _ & _ & Hfail).
  vm_compute in Hinit. injection Hinit as <- <-.
  vm_compute in Htext. injection Htext as <-.
  match type of Hfail with ?A → _ => assert (HA : A) end.
  { vm_compute. reflexivity. }
  specialize (Hfail HA).
  destruct Hfail as (tr'' & Hraise & _).
  eexists _, _, tr''.
  split; [reflexivity|]. split; [vm_compute; reflexivity|].
  refine (eq_trans Hraise _); vm_compute; reflexivity.
Defined.

(** ** ListWalker: proxies *)

Lemma flavor_tests (k : string) :
  k = "slist" ∨ k = "stailq" ∨ k = "tailq" →
  endswith (k ++ "_proxy") "_proxy" = true
  ∧ endswith (k ++ "_head") "_proxy" = false
  ∧ startswith (k ++ "_proxy") "tailq_" = startswith (k ++ "_head") "tailq_".
Proof. intros [-> | [-> | ->]]; repeat split; reflexivity. Qed.

Module Import Proxy.
Import ListPrinter.ListIterator.

(** What a request answers does not depend on the requests made before. *)
Lemma call_frame (inf : Inferior) (fn : Value) (args : list Value) :
  ∃ r evs,
    (∀ tr, call inf fn args tr = (r, (tr ++ evs)%list))
    ∧ r = match fn with
          | VFunc _ s => from_option GdbError (call_function inf s args)
          | _ => inl RuntimeError
          end.
Proof.
  destruct fn;
    try (eexists _, []; split; [intros tr; by rewrite app_nil_r | reflexivity]).
  eexists _, _. split; [intros tr; apply call_run | reflexivity].
Qed.

Lemma referenced_value_frame (inf : Inferior) (v : Value) :
  ∃ r evs, ∀ tr, referenced_value inf v tr = (r, (tr ++ evs)%list).
Proof.
  destruct v; try (eexists _, []; intros tr; by rewrite app_nil_r).
  eexists _, _. intros tr. cbn [referenced_value]. apply read_target_run.
Qed.

Lemma dereference_frame (inf : Inferior) (v : Value) :
  ∃ r evs, ∀ tr, dereference inf v tr = (r, (tr ++ evs)%list).
Proof.
  destruct v as [|ty ad a| |]; try (eexists _, []; intros tr; by rewrite app_nil_r).
  cbn [dereference]. destruct (TypeCode_eqb _ _).
  - destruct (memory inf a) as [r|] eqn:Hm.
    + destruct r as [|ty' ad' a'| |].
      2:{ eexists _, [EvReadMemory a; EvReadMemory a']. intros tr.
          rewrite M_bind_unfold, read_target_run, Hm. cbn [from_option].
          rewrite read_target_run, <- app_assoc. reflexivity. }
      all: eexists _, [EvReadMemory a]; intros tr;
        rewrite M_bind_unfold, read_target_run, Hm; reflexivity.
    + eexists _, [EvReadMemory a]. intros tr.
      rewrite M_bind_unfold, read_target_run, Hm. reflexivity.
  - eexists _, _. intros tr. apply read_target_run.
Qed.

(** Two iterators that differ in the extractor object only, in a debuggee
    whose accessors answer the same through either object, make the same
    step. *)
Lemma next_same_walk (inf : Inferior) (exP exH : Value) :
  (∀ s ref, call_function inf s [exP; ref] = call_function inf s [exH; ref]) →
  ∀ (ref ge gv : Value) (c stop : Z) (tr1 tr2 : Trace),
    ∃ r ref' c' t1 t2,
      __next__ inf (mk ref exP ge gv c stop, tr1)
        = (r, (mk ref' exP ge gv c' stop, t1))
      ∧ __next__ inf (mk ref exH ge gv c stop, tr2)
        = (r, (mk ref' exH ge gv c' stop, t2)).
Proof.
  intros Hcall ref ge gv c stop tr1 tr2. rewrite !next_unfold. cbv zeta.
  cbn [nextEntryRef entryEx getEntryFn getValueFn count stopEntryRefValue set_count].
  destruct (ref_address ref) as [e|a]; [by eexists _, _, _, _, _|].
  destruct (a =? stop); [by eexists _, _, _, _, _|].
  rewrite !on_snd_bind.
  destruct (call_frame inf gv [ref]) as (r1 & evs1 & H1 & _). rewrite !H1.
  destruct r1 as [e|p]; [by eexists _, _, _, _, _|].
  rewrite !on_snd_bind.
  destruct (referenced_value_frame inf p) as (r2 & evs2 & H2). rewrite !H2.
  destruct r2 as [e|item]; [by eexists _, _, _, _, _|].
  rewrite !on_snd_bind.
  destruct (call_frame inf ge [exP; ref]) as (r3 & evs3 & H3 & Hr3).
  destruct (call_frame inf ge [exH; ref]) as (r3' & evs3' & H3' & Hr3').
  rewrite H3, H3'.
  assert (r3' = r3) as ->
    by (rewrite Hr3, Hr3'; destruct ge; try reflexivity; by rewrite Hcall).
  clear Hr3 Hr3'. destruct r3 as [e|q]; [by eexists _, _, _, _, _|].
  rewrite !on_snd_bind.
  destruct (dereference_frame inf q) as (r4 & evs4 & H4). rewrite !H4.
  destruct r4 as [e|curEntry]; [by eexists _, _, _, _, _|].
  rewrite !lift_bind.
  destruct (getitem curEntry "next") as [e|next]; [by eexists _, _, _, _, _|].
  rewrite !M_bind_unfold. cbn [self_update fst snd].
  rewrite !M_bind_unfold. cbn [self_get fst snd mret M_ret].
  unfold set_nextEntryRef.
  cbn [nextEntryRef entryEx getEntryFn getValueFn count stopEntryRefValue].
  by eexists _, _, _, _, _.
Qed.

Lemma pull_same_walk (inf : Inferior) (exP exH : Value) :
  (∀ s ref, call_function inf s [exP; ref] = call_function inf s [exH; ref]) →
  ∀ (fuel : nat) (ref ge gv : Value) (c stop : Z) (tr1 tr2 : Trace),
    yielded (pull_all inf fuel (mk ref exP ge gv c stop, tr1))
    = yielded (pull_all inf fuel (mk ref exH ge gv c stop, tr2)).
Proof.
  intros Hcall fuel. induction fuel as [|fuel IH]; intros; [reflexivity|].
  rewrite !pull_all_S.
  destruct (next_same_walk inf exP exH Hcall ref ge gv c stop tr1 tr2)
    as (r & ref' & c' & t1 & t2 & -> & ->).
  destruct r as [e|item]; [by destruct e|].
  specialize (IH ref' ge gv c' stop t1 t2).
  destruct (pull_all inf fuel (mk ref' exP ge gv c' stop, t1)) as [[[? ?] ?]|];
    destruct (pull_all inf fuel (mk ref' exH ge gv c' stop, t2)) as [[[? ?] ?]|];
    cbn [yielded] in IH |- *; congruence.
Qed.

End Proxy.

(** C7: let [proxy] be a proxy-flavored value whose [m_head] refers to
    address [a], where the forward head [fwd] of the head-flavored value
    [head] of the same linkage and element type is found.  Each of the two
    has an extractor object of its own, [exP] and [exH], of the same type,
    and the debuggee's accessors answer the same through either.  When the
    setup succeeds on [head] it succeeds on [proxy]: one step through the
    proxy's reference reaches the real head (the resolved head is [fwd], the
    object at [a], for both), the setup makes the same symbol lookups and no
    other request than the fetch of that object, and the two iterators
    differ in the extractor object only, so that every walk yields the same
    labels and values and ends the same way.  Conversely the setup succeeds
    on [proxy] only when it does on [head]. *)
Theorem proxy_walks_as_head
    (inf : Inferior) (proxy head fwd exP exH : Value) (k : string)
    (rty : gdbType) (raddr : option Z) (a : Z) (tr : Trace) :
  k = "slist" ∨ k = "stailq" ∨ k = "tailq" →
  _remove_generics (ArgType (strip_typedefs (type_of proxy)))
    = inr ("csg::" ++ k ++ "_proxy") →
  _remove_generics (ArgType (strip_typedefs (type_of head)))
    = inr ("csg::" ++ k ++ "_head") →
  getitem proxy "m_head" = inr (VPtr rty raddr a) →
  memory inf a = Some fwd →
  getitem head "m_head" = inr fwd →
  getitem proxy "m_entryExtractor" = inr exP →
  getitem head "m_entryExtractor" = inr exH →
  strip_typedefs (type_of exP) = strip_typedefs (type_of exH) →
  (∀ s ref, call_function inf s [exP; ref] = call_function inf s [exH; ref]) →
  element_type_of proxy = element_type_of head →
  (∀ ph trh,
     ListPrinter.__init__ inf head tr = (inr ph, trh) →
     ∃ pp evs reads,
       trh = (tr ++ evs)%list
       ∧ ListPrinter.__init__ inf proxy tr = (inr pp, (tr ++ reads ++ evs)%list)
       ∧ (reads = [] ∨ reads = [EvReadMemory a])
       ∧ List.filter (λ e, match e with EvReadMemory _ => true | _ => false end) evs
           = []
       ∧ ListPrinter.fwdHead pp = fwd
       ∧ ListPrinter.fwdHead ph = fwd
       ∧ ListPrinter.ListIterator.entryEx (ListPrinter.children ph) = exH
       ∧ ListPrinter.children pp = with_extractor (ListPrinter.children ph) exP
       ∧ ∀ fuel tr1 tr2,
           yielded (ListPrinter.ListIterator.pull_all inf fuel
                      (ListPrinter.children pp, tr1))
           = yielded (ListPrinter.ListIterator.pull_all inf fuel
                        (ListPrinter.children ph, tr2)))
  ∧ (∀ pp trp,
       ListPrinter.__init__ inf proxy tr = (inr pp, trp) →
       ∃ ph trh,
         ListPrinter.__init__ inf head tr = (inr ph, trh)
         ∧ ListPrinter.children pp = with_extractor (ListPrinter.children ph) exP).
Proof.
  intros Hk Hqp Hqh Hmp Hmem Hmh Hexp Hexh Hty Hcall Hel.
  destruct (flavor_tests k Hk) as (Hproxy & Hhead & Htailq).
  rewrite !init_phases.
  rewrite (before_head_run proxy exP (VPtr rty raddr a) (k ++ "_proxy") Hexp Hqp Hmp).
  rewrite (before_head_run head exH fwd (k ++ "_head") Hexh Hqh Hmh).
  cbv zeta. rewrite Hproxy, Hhead, Htailq, Hty.
  unfold resolve_head. cbn [referenced_value].
  rewrite read_target_run, Hmem. cbn [from_option mret M_ret].
  rewrite (after_head_ext proxy head) by exact Hel.
  destruct (after_head head _ fwd) as [e|[[[stop first] eT] nT]];
    [split; intros ? ? [=]|].
  destruct (lookup_codec_frame inf eT nT (strip_typedefs (type_of exH)) (type_of first))
    as (r & evs & Hframe).
  rewrite !Hframe. destruct r as [e|fns]; [split; intros ? ? [=]|].
  split.
  - intros ph trh [= <- <-]. eexists _, evs, [EvReadMemory a].
    split; [reflexivity|]. split; [by rewrite <- app_assoc|].
    split; [by right|].
    split.
    { pose proof (Hframe []) as Hl. cbn [app] in Hl.
      destruct (lookup_codec_success _ _ _ _ _ _ _ _ Hl) as (text & _ & -> & _).
      reflexivity. }
    split; [reflexivity|]. split; [reflexivity|].
    split; [reflexivity|]. split; [reflexivity|].
    intros fuel tr1 tr2. by apply pull_same_walk.
  - intros pp trp [= <- <-]. eexists _, _. split; reflexivity.
Qed.

Lemma proxy_walks_as_head_witness :
  ∃ ph pp trh trp,
    ListPrinter.__init__ Fixture.slist_inferior (Fixture.head "slist" 4096) []
      = (inr ph, trh)
    ∧ ListPrinter.__init__ Fixture.slist_inferior (Fixture.proxy "slist") []
      = (inr pp, trp)
    ∧ ListPrinter.children pp
      = with_extractor (ListPrinter.children ph) (Fixture.proxy_extractor "slist")
    ∧ yielded (ListPrinter.ListIterator.pull_all Fixture.slist_inferior 4
                 (ListPrinter.children pp, trp))
      = yielded (ListPrinter.ListIterator.pull_all Fixture.slist_inferior 4
                   (ListPrinter.children ph, trh)).
Proof.
  destruct (ListPrinter.__init__ Fixture.slist_inferior (Fixture.head "slist" 4096) [])
    as [[e|ph] trh] eqn:Hinit; [vm_compute in Hinit; discriminate Hinit|].
  destruct (proj1 (proxy_walks_as_head Fixture.slist_inferior
                     (Fixture.proxy "slist") (Fixture.head "slist" 4096)
                     (Fixture.fwd_head "slist" 4096)
                     (Fixture.proxy_extractor "slist") (Fixture.extractor "slist")
                     "slist"
                     (Fixture.fwd_head_ref_ty "slist") (Some 136) 264 []
                     (or_introl eq_refl) eq_refl eq_refl eq_refl eq_refl eq_refl
                     eq_refl eq_refl eq_refl (λ s ref, eq_refl) eq_refl) ph trh Hinit)
    as (pp & evs & reads & _ & Hproxy & _ & _ & _ & _ & _ & Hsame & Hpull).
  exists ph, pp, trh, ([] ++ reads ++ evs)%list.
  split; [reflexivity|]. split; [exact Hproxy|].
  split; [exact Hsame | exact (Hpull 4%nat _ _)].
Defined.

(** * Further properties *)

(** ** The normalizer and the extractor text *)

Lemma span_not_lt_idem (s : string) : span_not_lt (span_not_lt s) = span_not_lt s.
Proof. apply span_not_lt_id, span_not_lt_no_lt. Qed.

Lemma re_match_prefix_inv (s g : string) :
  re_match_prefix s = Some g → g = span_not_lt s ∧ g ≠ "".
Proof.
  unfold re_match_prefix. destruct (span_not_lt s) as [|c r]; [discriminate|].
  intros [= <-]. split; [reflexivity | discriminate].
Qed.

(** X1: whatever [_remove_generics] returns, for a string or for a type
    descriptor, is not empty, has no ['<'] and is left unchanged by
    normalizing it again. *)
Theorem remove_generics_idempotent (typename : TypenameArg) (r : string) :
  _remove_generics typename = inr r →
  r ≠ "" ∧ ¬ has_lt r ∧ _remove_generics (ArgStr r) = inr r.
Proof.
  unfold _remove_generics. rewrite !Res_bind_unfold.
  assert (∀ s, match re_match_prefix s with
               | Some g => mret g | None => throw AttributeError end = inr r →
               r ≠ "" ∧ ¬ has_lt r
               ∧ match re_match_prefix r with
                 | Some g => mret g | None => throw AttributeError end = inr r)
    as Hkey.
  { intros s. destruct (re_match_prefix s) as [g|] eqn:Hg; [|discriminate].
    intros [= ->]. destruct (re_match_prefix_inv _ _ Hg) as [-> Hne].
    split; [exact Hne|]. split; [apply span_not_lt_no_lt|].
    unfold re_match_prefix. rewrite span_not_lt_idem.
    destruct (span_not_lt s); [congruence | reflexivity]. }
  destruct typename as [s|ty|]; cbn [mret Res_ret]; [apply Hkey | apply Hkey |].
  discriminate.
Qed.

Lemma remove_generics_idempotent_witness :
  _remove_generics (ArgType (Fixture.list_ty "tailq" "proxy")) = inr "csg::tailq_proxy"
  ∧ _remove_generics (ArgStr "csg::tailq_proxy") = inr "csg::tailq_proxy".
Proof.
  split; [reflexivity|].
  exact (proj2 (proj2 (remove_generics_idempotent
                         (ArgType (Fixture.list_ty "tailq" "proxy"))
                         "csg::tailq_proxy" eq_refl))).
Defined.

(** X2: the extractor text cannot be built, and the resolver then raises
    without asking the symbol table for anything, when the typedef-stripped
    extractor type has no name ([TypeError]), when its name begins with
    ['<'] ([AttributeError]), and for an offset extractor (a class type)
    whose template argument 2 is missing (GDB's [RuntimeError]) or is a type
    rather than a constant (the assertion). *)
Theorem extractor_text_failures
    (inf : Inferior) (elementTy entryTy : TemplateArg gdbType)
    (entryExTy refTy : gdbType) (tr : Trace) :
  (name (strip_typedefs entryExTy) = None →
     _get_entry_extractor_typename entryExTy = inl TypeError)
  ∧ (∀ n, name (strip_typedefs entryExTy) = Some (String "<" n) →
     _get_entry_extractor_typename entryExTy = inl AttributeError)
  ∧ (∀ c n, name (strip_typedefs entryExTy) = Some (String c n) → c ≠ "<"%char →
     span_not_lt (String c n) = "csg::offset_extractor" →
     code (strip_typedefs entryExTy) = TYPE_CODE_STRUCT →
     (template_arguments (strip_typedefs entryExTy) !! 2%nat = None →
        _get_entry_extractor_typename entryExTy = inl RuntimeError)
     ∧ (∀ t, template_arguments (strip_typedefs entryExTy) !! 2%nat = Some (TArgType t) →
        _get_entry_extractor_typename entryExTy
          = inl (AssertionError "offset_extractor template arg 2 not an NTTP?")))
  ∧ (∀ e, _get_entry_extractor_typename entryExTy = inl e →
     _lookup_entry_ref_codec_functions inf elementTy entryTy entryExTy refTy tr
       = (inl e, tr)).
Proof.
  split; [|split; [|split]].
  - intros Hn. unfold _get_entry_extractor_typename. by rewrite Hn.
  - intros n Hn. unfold _get_entry_extractor_typename. by rewrite Hn.
  - intros c n Hn Hc Heq _. unfold _get_entry_extractor_typename.
    rewrite Hn. cbn [of_name]. rewrite remove_generics_cons by assumption.
    rewrite Res_bind_unfold, Heq. cbn [String.eqb Ascii.eqb Bool.eqb negb].
    unfold template_argument.
    split; [intros ->; reflexivity | intros t ->; reflexivity].
  - intros e He. unfold _lookup_entry_ref_codec_functions.
    by rewrite lift_bind, He.
Qed.

Lemma extractor_text_failures_witness :
  _lookup_entry_ref_codec_functions Fixture.slist_inferior
    (TArgType Fixture.int_ty) (TArgType (Fixture.entry_decl "slist"))
    unnamed_extractor_ty (Fixture.ref_ty "slist") []
  = (inl TypeError, [])
  ∧ _get_entry_extractor_typename short_extractor_ty = inl RuntimeError.
Proof.
  destruct (extractor_text_failures Fixture.slist_inferior
              (TArgType Fixture.int_ty) (TArgType (Fixture.entry_decl "slist"))
              unnamed_extractor_ty (Fixture.ref_ty "slist") [])
    as (Hnone & _ & _ & Hraise).
  destruct (extractor_text_failures Fixture.slist_inferior
              (TArgType Fixture.int_ty) (TArgType (Fixture.entry_decl "slist"))
              short_extractor_ty (Fixture.ref_ty "slist") [])
    as (_ & _ & Hoffset & _).
  split; [exact (Hraise TypeError (Hnone eq_refl))|].
  exact (proj1 (Hoffset "c"%char "sg::offset_extractor<csg::slist_entry<int>, int>"
                  eq_refl ltac:(discriminate) eq_refl eq_refl) eq_refl).
Defined.

(** ** The dispatcher *)

(** X3: on a struct or union whose name (else tag, else printed form) is
    [csg::] followed by a name that normalizes to one of the six list names,
    the dispatcher is the setup of the list walker: same requests to the
    debuggee, the printer wrapped on success, the exception passed on
    otherwise.  On [entry_ref_union] it is the tagged-reference decoder, with
    no request at all. *)
Theorem dispatcher_constructs
    (inf : Inferior) (nm : string) (value : Value) (tr : Trace)
    (c : ascii) (r : string) :
  let self := CSDPrettyPrinter.__init__ nm in
  let canonType := strip_typedefs (type_of value) in
  code canonType = TYPE_CODE_STRUCT ∨ code canonType = TYPE_CODE_UNION →
  name_or_tag_or_str canonType = "csg::" ++ String c r →
  c ≠ "<"%char →
  (is_list_name (span_not_lt (String c r)) →
     CSDPrettyPrinter.__call__ inf self value tr =
       match ListPrinter.__init__ inf value tr with
       | (inr p, tr') => (inr (Some (CSDPrettyPrinter.AListPrinter p)), tr')
       | (inl e, tr') => (inl e, tr')
       end)
  ∧ (span_not_lt (String c r) = "entry_ref_union" →
     CSDPrettyPrinter.__call__ inf self value tr =
       (match EntryRefPrinter.__init__ value with
        | inr p => inr (Some (CSDPrettyPrinter.AnEntryRefPrinter p))
        | inl e => inl e
        end, tr)).
Proof.
  intros self canonType Hcode Hname Hc.
  assert (∀ cls,
            CSDPrettyPrinter.lookup self !! span_not_lt (String c r) = Some cls →
            CSDPrettyPrinter.__call__ inf self value tr =
              (CSDPrettyPrinter.construct inf cls value
                 ≫= λ p, mret (Some p)) tr) as Hdispatch.
  { intros cls Hcls. unfold CSDPrettyPrinter.__call__. fold canonType.
    assert (∀ X Y : M Trace (option CSDPrettyPrinter.Printer),
              match code canonType with
              | TYPE_CODE_STRUCT | TYPE_CODE_UNION => X
              | _ => Y
              end = X) as -> by (intros; by destruct Hcode as [-> | ->]).
    rewrite Hname, startswith_csg_app. cbn [negb].
    change (slice_from 5 ("csg::" ++ String c r)) with (String c r).
    rewrite lift_bind, (remove_generics_cons c r Hc).
    unfold self in *. rewrite Hcls. reflexivity. }
  split.
  - intros Hlist. apply (lookup_table_list nm) in Hlist.
    rewrite (Hdispatch _ Hlist). cbn [CSDPrettyPrinter.construct].
    rewrite !M_bind_unfold.
    destruct (ListPrinter.__init__ inf value tr) as [[e|p] tr']; reflexivity.
  - intros Href. apply (lookup_table_entry_ref nm) in Href.
    rewrite (Hdispatch _ Href). cbn [CSDPrettyPrinter.construct].
    rewrite M_bind_unfold, lift_bind.
    destruct (EntryRefPrinter.__init__ value) as [e|p]; reflexivity.
Qed.

Lemma dispatcher_constructs_witness :
  CSDPrettyPrinter.__call__ (Fixture.stripped_inferior "slist" 0 [])
    (CSDPrettyPrinter.__init__ _csd_printer_name) (Fixture.head "slist" 0) []
  = match ListPrinter.__init__ (Fixture.stripped_inferior "slist" 0 [])
            (Fixture.head "slist" 0) [] with
    | (inr p, tr') => (inr (Some (CSDPrettyPrinter.AListPrinter p)), tr')
    | (inl e, tr') => (inl e, tr')
    end.
Proof.
  apply (proj1 (dispatcher_constructs (Fixture.stripped_inferior "slist" 0 [])
                  _csd_printer_name (Fixture.head "slist" 0) [] "s"
                  "list_head<int, csg::offset_extractor<csg::slist_entry<int>, int, 8>, csg::no_size>"
                  (or_introl eq_refl) eq_refl ltac:(discriminate))).
  left. reflexivity.
Defined.

Lemma list_init_typedef (inf : Inferior) (ty ty' : gdbType) (addr : option Z)
    (ms : list (string * Value)) (tr : Trace) :
  strip_typedefs ty' = strip_typedefs ty →
  match ListPrinter.__init__ inf (VStruct ty' addr ms) tr,
        ListPrinter.__init__ inf (VStruct ty addr ms) tr with
  | (inr p', t'), (inr p, t) => ListPrinter.children p' = ListPrinter.children p ∧ t' = t
  | (inl e', t'), (inl e, t) => e' = e ∧ t' = t
  | _, _ => False
  end.
Proof.
  intros Hty. rewrite !init_phases.
  assert (before_head (VStruct ty' addr ms) = before_head (VStruct ty addr ms)) as ->.
  { unfold before_head. cbn [type_of]. by rewrite Hty. }
  destruct (before_head (VStruct ty addr ms)) as [e|[[ex ltn] fwd0]]; [done|].
  cbv zeta.
  destruct (resolve_head inf _ fwd0 tr) as [[e|fwd] tr1]; [done|].
  rewrite (after_head_ext (VStruct ty' addr ms) (VStruct ty addr ms)).
  2:{ unfold element_type_of, fields_of. cbn [type_of]. by rewrite Hty. }
  destruct (after_head _ _ fwd) as [e|[[[stop first] eT] nT]]; [done|].
  destruct (_lookup_entry_ref_codec_functions _ _ _ _ _ _) as [[e|fns] tr2]; done.
Qed.

Lemma entry_ref_init_typedef (ty ty' : gdbType) (addr : option Z)
    (ms : list (string * Value)) :
  strip_typedefs ty' = strip_typedefs ty →
  match EntryRefPrinter.__init__ (VStruct ty' addr ms),
        EntryRefPrinter.__init__ (VStruct ty addr ms) with
  | inr p', inr p => EntryRefPrinter.children p' = EntryRefPrinter.children p
  | inl e', inl e => e' = e
  | _, _ => False
  end.
Proof.
  intros Hty. unfold EntryRefPrinter.__init__, template_argument.
  cbn [type_of]. rewrite Hty. cbn [getitem].
  res_steps.
  destruct (from_option GdbError (find_member "offset" ms)) as [e|off]; [done|].
  res_steps.
  destruct (getitem off "m_address") as [e|av]; [done|].
  res_steps.
  destruct (int_of av) as [e|a]; [done|].
  destruct (negb (Z.land a 1 =? 0)); res_steps;
    (destruct (from_option RuntimeError _) as [e|targ]; [done|]);
    res_steps;
    (destruct (EntryRefPrinter.pointer_of targ) as [e|pty]; [done|]);
    res_steps.
  - destruct (value_sub av 1) as [e|u]; [done|]. res_steps.
    destruct (cast u pty) as [e|ch]; done.
  - destruct (cast av pty) as [e|ch]; done.
Qed.

(** X4: the dispatcher looks through typedefs: two struct values with the
    same members whose types strip to the same type get the same answer
    (none, the same exception, or a printer of the same kind with the same
    children) after the same requests to the debuggee. *)
Theorem dispatcher_sees_through_typedefs
    (inf : Inferior) (nm : string) (ty ty' : gdbType) (addr : option Z)
    (ms : list (string * Value)) (tr : Trace) :
  strip_typedefs ty' = strip_typedefs ty →
  let out := CSDPrettyPrinter.__call__ inf (CSDPrettyPrinter.__init__ nm)
               (VStruct ty addr ms) tr in
  let out' := CSDPrettyPrinter.__call__ inf (CSDPrettyPrinter.__init__ nm)
                (VStruct ty' addr ms) tr in
  outcome (fst out') = outcome (fst out) ∧ snd out' = snd out.
Proof.
  intros Hty out out'. subst out out'. unfold CSDPrettyPrinter.__call__.
  cbn [type_of]. rewrite Hty. cbv zeta.
  destruct (code (strip_typedefs ty)); try by split.
  all: destruct (negb (startswith _ "csg::")); [by split|].
  all: rewrite !lift_bind;
    (destruct (_remove_generics _) as [e|baseName]; [by split|]);
    (destruct (_ !! baseName) as [[|]|]; [| |by split]);
    cbn [CSDPrettyPrinter.construct]; rewrite !M_bind_unfold.
  1,3: pose proof (list_init_typedef inf ty ty' addr ms tr Hty) as H;
    destruct (ListPrinter.__init__ inf (VStruct ty' addr ms) tr) as [[e'|p'] t'];
    destruct (ListPrinter.__init__ inf (VStruct ty addr ms) tr) as [[e|p] t];
    try contradiction; destruct H as [H ->]; cbn; by rewrite H.
  all: unfold lift;
    pose proof (entry_ref_init_typedef ty ty' addr ms Hty) as H;
    destruct (EntryRefPrinter.__init__ (VStruct ty' addr ms)) as [e'|p'];
    destruct (EntryRefPrinter.__init__ (VStruct ty addr ms)) as [e|p];
    try contradiction; cbn; by rewrite H.
Qed.

Lemma dispatcher_sees_through_typedefs_witness :
  Fixture.print_list Fixture.slist_inferior
    (VStruct my_list_ty (Some 256)
       [("m_head", Fixture.fwd_head "slist" 4096);
        ("m_entryExtractor", Fixture.extractor "slist")]) 4
  = Some ([("[1]", inr 10); ("[2]", inr 20); ("[3]", inr 30)], None)
  ∧ outcome (fst (CSDPrettyPrinter.__call__ Fixture.slist_inferior
                    (CSDPrettyPrinter.__init__ _csd_printer_name)
                    (VStruct my_list_ty (Some 256)
                       [("m_head", Fixture.fwd_head "slist" 4096);
                        ("m_entryExtractor", Fixture.extractor "slist")]) []))
    = outcome (fst (CSDPrettyPrinter.__call__ Fixture.slist_inferior
                      (CSDPrettyPrinter.__init__ _csd_printer_name)
                      (Fixture.head "slist" 4096) [])).
Proof.
  split; [vm_compute; reflexivity|].
  exact (proj1 (dispatcher_sees_through_typedefs Fixture.slist_inferior
                  _csd_printer_name (Fixture.list_ty "slist" "head") my_list_ty
                  (Some 256)
                  [("m_head", Fixture.fwd_head "slist" 4096);
                   ("m_entryExtractor", Fixture.extractor "slist")] [] eq_refl)).
Defined.

(** ** The walker: what it asks of the debuggee, and how walks end *)

Lemma lookup_codec_events (inf : Inferior) (elementTy entryTy : TemplateArg gdbType)
    (entryExTy refTy : gdbType) (tr : Trace) :
  ∃ lookups,
    snd (_lookup_entry_ref_codec_functions inf elementTy entryTy entryExTy refTy tr)
      = (tr ++ lookups)%list
    ∧ (lookups = []
       ∨ ∃ s1, lookups = [EvLookupSymbol s1]
               ∨ ∃ s2, lookups = [EvLookupSymbol s1; EvLookupSymbol s2]).
Proof.
  destruct (_get_entry_extractor_typename entryExTy) as [e|text] eqn:Htext.
  - exists []. unfold _lookup_entry_ref_codec_functions.
    rewrite lift_bind, Htext, app_nil_r. auto.
  - rewrite (lookup_codec_run inf elementTy entryTy entryExTy refTy tr text Htext).
    cbv zeta.
    destruct (symtab inf _) as [sym1|]; [destruct (is_function sym1)|];
      [destruct (symtab inf _) as [sym2|]; [destruct (is_function sym2)|] | |];
      eexists; (split; [reflexivity|]); eauto.
Qed.

Lemma resolve_head_events (inf : Inferior) (isProxy : bool) (v : Value) (tr : Trace) :
  ∃ reads,
    snd (resolve_head inf isProxy v tr) = (tr ++ reads)%list
    ∧ (reads = [] ∨ ∃ a, reads = [EvReadMemory a]).
Proof.
  unfold resolve_head. destruct isProxy.
  - destruct v as [|ty ad a| |];
      try (exists []; cbn; rewrite app_nil_r; by auto).
    cbn [referenced_value]. rewrite read_target_run. eauto.
  - exists []. cbn. rewrite app_nil_r. auto.
Qed.

(** X5: whatever the value and however the setup of the list walker ends
    (printer or exception), it calls no function of the debuggee: it reads
    target memory at most once (the head a proxy refers to) and after that
    asks the symbol table for at most two symbols. *)
Theorem list_setup_requests (inf : Inferior) (value : Value) (tr : Trace) :
  ∃ reads lookups,
    snd (ListPrinter.__init__ inf value tr) = (tr ++ reads ++ lookups)%list
    ∧ (reads = [] ∨ ∃ a, reads = [EvReadMemory a])
    ∧ (lookups = []
       ∨ ∃ s1, lookups = [EvLookupSymbol s1]
               ∨ ∃ s2, lookups = [EvLookupSymbol s1; EvLookupSymbol s2]).
Proof.
  rewrite init_phases.
  destruct (before_head value) as [e|[[ex ltn] fwd0]].
  { exists [], []. cbn. rewrite app_nil_r. auto. }
  cbv zeta.
  destruct (resolve_head_events inf (endswith ltn "_proxy") fwd0 tr)
    as (reads & Hreads & Hshape).
  destruct (resolve_head inf _ fwd0 tr) as [[e|fwd] tr1]; cbn [snd] in Hreads;
    subst tr1.
  { exists reads, []. cbn [snd]. rewrite app_nil_r. auto. }
  destruct (after_head value _ fwd) as [e|[[[stop first] eT] nT]].
  { exists reads, []. cbn [snd]. rewrite app_nil_r. auto. }
  destruct (lookup_codec_events inf eT nT (strip_typedefs (type_of ex))
              (type_of first) (tr ++ reads)%list) as (lookups & Hl & Hlshape).
  destruct (_lookup_entry_ref_codec_functions _ _ _ _ _ _) as [[e|fns] tr2];
    cbn [snd] in Hl |- *; subst tr2; exists reads, lookups;
    rewrite <- app_assoc; auto.
Qed.



Module Import Paths.
Import ListPrinter.ListIterator.

(** Pulls along a stretch of the list: its entries come out, then the pull
    goes on from the end of the stretch. *)
Lemma pull_path (inf : Inferior) (it : t) (ref last : Value)
    (entries : list (Value * Value)) :
  path inf it ref entries last →
  ∀ (c : Z) (tr : Trace) (fuel : nat),
    ∃ evs,
      pull_all inf (length entries + fuel) (at_ref it ref c, tr) =
        match pull_all inf fuel
                (at_ref it last (c + Z.of_nat (length entries)), (tr ++ evs)%list) with
        | Some (items, e, s) => Some ((labelled c entries ++ items)%list, e, s)
        | None => None
        end
      ∧ List.filter is_call evs = expected_calls it entries.
Proof.
  induction 1 as [ref | ref a item next rest last Ha Hne Helem Hsucc Hpath IH];
    intros c tr fuel.
  - exists []. split; [|reflexivity].
    change (length (@nil (Value * Value)) + fuel)%nat with fuel.
    cbn [length labelled app]. rewrite Z.add_0_r, app_nil_r.
    destruct (pull_all inf fuel (at_ref it ref c, tr)) as [[[? ?] ?]|]; reflexivity.
  - destruct (next_entry inf (at_ref it ref c) tr a item next Ha Hne Helem Hsucc)
      as (evs1 & Hnext & Hcalls1).
    cbn [at_ref nextEntryRef entryEx getEntryFn getValueFn count stopEntryRefValue]
      in Hnext, Hcalls1.
    change (mk ref (entryEx it) (getEntryFn it) (getValueFn it) c
              (stopEntryRefValue it)) with (at_ref it ref c) in Hnext.
    change (mk next (entryEx it) (getEntryFn it) (getValueFn it) (c + 1)
              (stopEntryRefValue it)) with (at_ref it next (c + 1)) in Hnext.
    destruct (IH (c + 1) (tr ++ evs1)%list fuel) as (evs2 & Hpull & Hcalls2).
    exists (evs1 ++ evs2)%list. split.
    + change (length ((ref, item) :: rest) + fuel)%nat
        with (S (length rest + fuel)).
      rewrite pull_all_S, Hnext. cbv beta iota.
      rewrite Hpull. cbn [length labelled].
      replace (c + 1 + Z.of_nat (length rest))
        with (c + Z.of_nat (S (length rest))) by lia.
      rewrite <- (app_assoc tr evs1 evs2).
      match goal with
      | |- context [pull_all inf fuel ?s] =>
          destruct (pull_all inf fuel s) as [[[? ?] ?]|]; reflexivity
      end.
    + rewrite List.filter_app, Hcalls1, Hcalls2. reflexivity.
Qed.

Lemma pull_all_None_S (inf : Inferior) (fuel : nat) (s : t * Trace) :
  pull_all inf (S fuel) s = None → pull_all inf fuel s = None.
Proof.
  revert s. induction fuel as [|fuel IH]; intros s; [reflexivity|].
  rewrite (pull_all_S inf (S fuel)), (pull_all_S inf fuel).
  destruct (__next__ inf s) as [[e|item] s']; [by destruct e|].
  destruct (pull_all inf (S fuel) s') as [[[items e] s'']|] eqn:Hs; [discriminate|].
  intros _. by rewrite (IH s' Hs).
Qed.

Lemma pull_all_None_le (inf : Inferior) (fuel fuel' : nat) (s : t * Trace) :
  (fuel' ≤ fuel)%nat → pull_all inf fuel s = None → pull_all inf fuel' s = None.
Proof.
  induction 1 as [|fuel Hle IH]; [done|].
  intros H. apply IH. by apply pull_all_None_S.
Qed.

End Paths.

(** X7: when the entries up to a reference [last] can be walked and, at
    [last] (which is not the end of the list), the debuggee's [get_value]
    fails, the walk yields exactly the pairs of the entries before [last],
    labelled [1], [2], ..., and then raises [gdb.error]: what was produced
    before the failure is kept.  The failing call is the last request made,
    and the iterator stays at [last], with the failed pull counted. *)
Theorem walk_keeps_items_before_failure
    (inf : Inferior) (it : ListPrinter.ListIterator.t) (last : Value)
    (entries : list (Value * Value)) (a : Z) (ty : gdbType) (s : string)
    (tr : Trace) :
  ListPrinter.ListIterator.count it = 0 →
  path inf it (ListPrinter.ListIterator.nextEntryRef it) entries last →
  ListPrinter.ListIterator.ref_address last = inr a →
  a ≠ ListPrinter.ListIterator.stopEntryRefValue it →
  ListPrinter.ListIterator.getValueFn it = VFunc ty s →
  call_function inf s [last] = None →
  ∀ fuel, ∃ evs,
    ListPrinter.ListIterator.pull_all inf (length entries + S fuel) (it, tr)
      = Some (imap (λ i x, ("[" ++ str_int (Z.of_nat (S i)) ++ "]", snd x)) entries,
              Some GdbError,
              (at_ref it last (Z.of_nat (length entries) + 1),
               (tr ++ evs ++ [EvCall s [last]])%list)).
Proof.
  intros Hcount Hpath Ha Hne Hgv Hfail fuel.
  destruct (pull_path inf it _ last entries Hpath 0 tr (S fuel)) as (evs & Hpull & _).
  destruct it as [ref ex ge gv c stop].
  cbn [ListPrinter.ListIterator.count ListPrinter.ListIterator.getValueFn
         ListPrinter.ListIterator.stopEntryRefValue
         ListPrinter.ListIterator.nextEntryRef] in Hcount, Hgv, Hne, Hpull.
  subst c gv. exists evs.
  unfold at_ref in Hpull |- *.
  cbn [ListPrinter.ListIterator.nextEntryRef ListPrinter.ListIterator.entryEx
         ListPrinter.ListIterator.getEntryFn ListPrinter.ListIterator.getValueFn
         ListPrinter.ListIterator.stopEntryRefValue Z.add] in Hpull |- *.
  rewrite Hpull, pull_all_S, next_unfold. cbv zeta.
  cbn [ListPrinter.ListIterator.nextEntryRef ListPrinter.ListIterator.entryEx
         ListPrinter.ListIterator.getEntryFn ListPrinter.ListIterator.getValueFn
         ListPrinter.ListIterator.stopEntryRefValue ListPrinter.ListIterator.count
         ListPrinter.ListIterator.set_count].
  rewrite Ha. apply Z.eqb_neq in Hne. rewrite Hne.
  rewrite on_snd_bind, call_run, Hfail. cbn [from_option].
  by rewrite labelled_imap, app_nil_r, <- app_assoc.
Qed.

Lemma failing_path :
  path failing_inferior slist_iterator (Fixture.ref "slist" 4096)
    [(Fixture.ref "slist" 4096, VInt Fixture.int_ty (Some 4104) 10);
     (Fixture.ref "slist" 8192, VInt Fixture.int_ty (Some 8200) 20)]
    (Fixture.ref "slist" 12288).
Proof.
  eapply path_entry with (a := 4096) (next := Fixture.ref "slist" 8192);
    [reflexivity | discriminate | vm_compute; reflexivity | vm_compute; reflexivity |].
  eapply path_entry with (a := 8192) (next := Fixture.ref "slist" 12288);
    [reflexivity | discriminate | vm_compute; reflexivity | vm_compute; reflexivity |].
  apply path_here.
Defined.

Lemma walk_keeps_items_before_failure_witness :
  ∃ evs,
    ListPrinter.ListIterator.pull_all failing_inferior 3 (slist_iterator, [])
      = Some ([("[1]", VInt Fixture.int_ty (Some 4104) 10);
               ("[2]", VInt Fixture.int_ty (Some 8200) 20)],
              Some GdbError,
              (at_ref slist_iterator (Fixture.ref "slist" 12288) 3,
               (evs ++ [EvCall (Fixture.get_value_sym "slist")
                          [Fixture.ref "slist" 12288]])%list)).
Proof.
  exact (walk_keeps_items_before_failure failing_inferior slist_iterator
           (Fixture.ref "slist" 12288) _ 12288 Fixture.fn_ty
           (Fixture.get_value_sym "slist") [] eq_refl failing_path eq_refl
           ltac:(discriminate) eq_refl eq_refl 0%nat).
Defined.

(** X8: a list that links back into itself before the stop reference is
    never walked to an end: however many pulls are made from a reference
    that lies on a cycle, the iterator has not finished. *)
Theorem cyclic_list_never_finishes
    (inf : Inferior) (it : ListPrinter.ListIterator.t) (ref : Value)
    (entries : list (Value * Value)) :
  path inf it ref entries ref → entries ≠ [] →
  ∀ (fuel : nat) (c : Z) (tr : Trace),
    ListPrinter.ListIterator.pull_all inf fuel (at_ref it ref c, tr) = None.
Proof.
  intros Hpath Hne fuel.
  induction (lt_wf fuel) as [fuel _ IH]. intros c tr.
  assert (0 < length entries)%nat as Hlen by (destruct entries; [done | cbn; lia]).
  destruct (le_lt_dec (length entries) fuel) as [Hle|Hlt].
  - replace fuel with (length entries + (fuel - length entries))%nat by lia.
    destruct (pull_path inf it ref ref entries Hpath c tr (fuel - length entries))
      as (evs & -> & _).
    rewrite IH by lia. reflexivity.
  - apply (pull_all_None_le inf (length entries + 0) fuel); [lia|].
    destruct (pull_path inf it ref ref entries Hpath c tr 0) as (evs & -> & _).
    reflexivity.
Qed.

Lemma looping_path :
  path looping_inferior slist_iterator (Fixture.ref "slist" 4096)
    [(Fixture.ref "slist" 4096, VInt Fixture.int_ty (Some 4104) 1);
     (Fixture.ref "slist" 8192, VInt Fixture.int_ty (Some 8200) 2)]
    (Fixture.ref "slist" 4096).
Proof.
  eapply path_entry with (a := 4096) (next := Fixture.ref "slist" 8192);
    [reflexivity | discriminate | vm_compute; reflexivity | vm_compute; reflexivity |].
  eapply path_entry with (a := 8192) (next := Fixture.ref "slist" 4096);
    [reflexivity | discriminate | vm_compute; reflexivity | vm_compute; reflexivity |].
  apply path_here.
Defined.

Lemma cyclic_list_never_finishes_witness :
  ListPrinter.ListIterator.pull_all looping_inferior 1000
    (at_ref slist_iterator (Fixture.ref "slist" 4096) 0, []) = None.
Proof.
  apply (cyclic_list_never_finishes looping_inferior slist_iterator
           (Fixture.ref "slist" 4096) _ looping_path ltac:(discriminate)).
Defined.

(** ** The one-line summary *)

(** X9: when the head's [m_sz] member has an integer type (type code
    INT), the summary is the flavor name, the element type and [, size = ]
    followed by GDB's rendering of that member, then the extractor's type
    and rendering when the extractor type has fields; it never shows
    [(empty)] and does not depend on where the iterator stands. *)
Theorem summary_reports_size
    (format_value : Value → string) (p : ListPrinter.t)
    (it : ListPrinter.ListIterator.t) (size : Value)
    (flds : list (string * gdbType)) :
  getitem (ListPrinter.fwdHead p) "m_sz" = inr size →
  code (type_of size) = TYPE_CODE_INT →
  fields_of (type_of (ListPrinter.entryEx p)) = inr flds →
  let desc := ("csg::" ++ ListPrinter.listTyName p ++ " of "
                 ++ str_targ (ListPrinter.elementTy p))
              ++ ", size = " ++ format_value size in
  ListPrinter.to_string format_value (with_iterator p it) =
    inr (match flds with
         | [] => desc
         | _ :: _ =>
             desc ++ ", extractor "
               ++ type_str (strip_typedefs (type_of (ListPrinter.entryEx p)))
               ++ " = " ++ format_value (ListPrinter.entryEx p)
         end).
Proof.
  intros Hsz Hcode Hflds desc. unfold ListPrinter.to_string.
  cbn [with_iterator ListPrinter.fwdHead ListPrinter.listTyName
         ListPrinter.elementTy ListPrinter.entryEx ListPrinter.iterator].
  rewrite Hsz. cbv zeta. res_steps. rewrite Hcode.
  cbn [TypeCode_eqb mret Res_ret]. res_steps. rewrite Hflds. res_steps.
  by destruct flds.
Qed.

Lemma summary_reports_size_witness :
  ListPrinter.to_string render
    (with_iterator (sized_printer Fixture.ulong_ty 3 4096 slist_iterator)
       (at_ref slist_iterator (Fixture.ref "slist" 0) 4))
  = inr "csg::slist_head of int, size = 3"
  ∧ ListPrinter.to_string render
      (sized_printer char_ty 65 4096 slist_iterator)
    = inr "csg::slist_head of int, size = 65 'A'".
Proof.
  split.
  - exact (summary_reports_size render
             (sized_printer Fixture.ulong_ty 3 4096 slist_iterator)
             (at_ref slist_iterator (Fixture.ref "slist" 0) 4)
             (VInt Fixture.ulong_ty (Some 272) 3) [] eq_refl eq_refl eq_refl).
  - exact (summary_reports_size render
             (sized_printer char_ty 65 4096 slist_iterator) slist_iterator
             (VInt char_ty (Some 272) 65) [] eq_refl eq_refl eq_refl).
Defined.

(** X10: when [m_sz] is not of type code INT (an empty size policy, but
    also an integer behind a typedef such as [std::size_t]) and the
    extractor type has no fields, the summary shows no size, and [(empty)]
    stands for "the iterator is finished": for a list with entries the
    summary taken before any pull has no marker, and the summary taken once
    the children were pulled to the end says [(empty)]. *)
Theorem summary_empty_follows_iterator
    (format_value : Value → string) (inf : Inferior) (p : ListPrinter.t)
    (size : Value) (entries : list (Value * Value)) (tr : Trace) :
  getitem (ListPrinter.fwdHead p) "m_sz" = inr size →
  code (type_of size) ≠ TYPE_CODE_INT →
  fields_of (type_of (ListPrinter.entryEx p)) = inr [] →
  ListPrinter.ListIterator.count (ListPrinter.iterator p) = 0 →
  chain inf (ListPrinter.iterator p)
    (ListPrinter.ListIterator.nextEntryRef (ListPrinter.iterator p)) entries →
  let desc := "csg::" ++ ListPrinter.listTyName p ++ " of "
                ++ str_targ (ListPrinter.elementTy p) in
  ListPrinter.to_string format_value p
    = inr (match entries with [] => desc ++ " (empty)" | _ :: _ => desc end)
  ∧ ∃ items final tr',
      ListPrinter.ListIterator.pull_all inf (S (length entries))
        (ListPrinter.children p, tr) = Some (items, None, (final, tr'))
      ∧ length items = length entries
      ∧ ListPrinter.to_string format_value (with_iterator p final)
        = inr (desc ++ " (empty)").
Proof.
  intros Hsz Hcode Hflds Hcount Hchain desc.
  assert (∀ it, ListPrinter.to_string format_value (with_iterator p it) =
                match ListPrinter.ListIterator.isFinished it with
                | inl e => inl e
                | inr finished => inr (if finished then desc ++ " (empty)" else desc)
                end) as Hsummary.
  { intros it. unfold ListPrinter.to_string.
    cbn [with_iterator ListPrinter.fwdHead ListPrinter.listTyName
           ListPrinter.elementTy ListPrinter.entryEx ListPrinter.iterator].
    rewrite Hsz. cbv zeta. res_steps.
    destruct (TypeCode_eqb (code (type_of size)) TYPE_CODE_INT) eqn:Hc.
    { exfalso. apply Hcode. by destruct (code (type_of size)). }
    res_steps. destruct (ListPrinter.ListIterator.isFinished it) as [e|fin];
      [reflexivity|].
    cbn [mret Res_ret]. res_steps. rewrite Hflds. reflexivity. }
  assert (with_iterator p (ListPrinter.iterator p) = p) as Hp by by destruct p.
  split.
  - rewrite <- Hp at 1. rewrite Hsummary.
    unfold ListPrinter.ListIterator.isFinished.
    inversion Hchain as [ref Hstop | ref a item next rest Ha Hne _ _ _]; subst.
    + rewrite Hstop. cbn. by rewrite Z.eqb_refl.
    + rewrite Ha. cbn. apply Z.eqb_neq in Hne. by rewrite Hne.
  - destruct (pull_chain inf _ _ entries Hchain 0 tr)
      as (final & evs & Hpull & _ & Hfin & _).
    destruct (ListPrinter.iterator p) as [ref ex ge gv c stop] eqn:Hit.
    cbn in Hcount. subst c. unfold ListPrinter.children. rewrite Hit.
    cbn [ListPrinter.ListIterator.nextEntryRef ListPrinter.ListIterator.entryEx
           ListPrinter.ListIterator.getEntryFn ListPrinter.ListIterator.getValueFn
           ListPrinter.ListIterator.stopEntryRefValue] in Hpull.
    eexists _, final, _. split; [exact Hpull|]. split.
    + rewrite labelled_imap. by rewrite length_imap.
    + by rewrite Hsummary, Hfin.
Qed.

Lemma summary_empty_follows_iterator_witness :
  ListPrinter.to_string (λ _, "{...}") (sized_printer size_t_ty 3 4096 slist_iterator)
    = inr "csg::slist_head of int"
  ∧ ∃ items final tr',
      ListPrinter.ListIterator.pull_all Fixture.slist_inferior 4 (slist_iterator, [])
        = Some (items, None, (final, tr'))
      ∧ length items = 3%nat
      ∧ ListPrinter.to_string (λ _, "{...}")
          (with_iterator (sized_printer size_t_ty 3 4096 slist_iterator) final)
        = inr "csg::slist_head of int (empty)".
Proof.
  exact (summary_empty_follows_iterator (λ _, "{...}") Fixture.slist_inferior
           (sized_printer size_t_ty 3 4096 slist_iterator)
           (VInt size_t_ty (Some 272) 3) slist_entries []
           eq_refl ltac:(discriminate) eq_refl eq_refl slist_chain).
Defined.

(** ** Registration *)

Module Import Reg.
Import Registration.

Lemma getattr_name_has_name (printer : PrettyPrinter) :
  String.eqb (getattr_name printer "none") _csd_printer_name
    = has_name _csd_printer_name printer.
Proof. by destruct printer. Qed.

Lemma list_remove_first (x : PrettyPrinter) (pre rest : list PrettyPrinter) :
  existsb (has_name _csd_printer_name) pre = false →
  has_name _csd_printer_name x = true →
  list_remove x (pre ++ x :: rest) = Some (pre ++ rest)%list.
Proof.
  intros Hpre Hx. induction pre as [|y pre IH]; cbn [app list_remove].
  - by rewrite decide_True.
  - cbn [existsb] in Hpre. apply orb_false_iff in Hpre as [Hy Hpre].
    rewrite decide_False by (intros ->; congruence).
    by rewrite IH.
Qed.

Lemma unregister_loop_run (pre rest : list PrettyPrinter) (flag : bool) :
  existsb (has_name _csd_printer_name) pre = false →
  unregister_loop (pre ++ rest) rest flag =
    (None,
     if existsb (has_name _csd_printer_name) rest
     then mkProgspace false (pre ++ without_first _csd_printer_name rest)
     else mkProgspace flag (pre ++ rest)).
Proof.
  revert pre. induction rest as [|x rest IH]; intros pre Hpre; [reflexivity|].
  cbn [unregister_loop existsb without_first].
  rewrite getattr_name_has_name.
  destruct (has_name _csd_printer_name x) eqn:Hx; cbn [orb].
  - by rewrite list_remove_first.
  - replace (pre ++ x :: rest)%list with ((pre ++ [x]) ++ rest)%list
      by by rewrite <- app_assoc.
    rewrite IH by (rewrite existsb_app, Hpre; cbn; by rewrite Hx).
    rewrite <- !app_assoc. reflexivity.
Qed.

Lemma unregister_run (s : Session) :
  _unregister_csd_printers s =
    (None,
     if csd_pretty_printer (progspace s)
        && existsb (has_name _csd_printer_name) (pretty_printers (progspace s))
     then mkSession (gdb_printing s)
            (mkProgspace false
               (without_first _csd_printer_name (pretty_printers (progspace s))))
            (console s)
     else s).
Proof.
  unfold _unregister_csd_printers. destruct s as [imported [flag l] out].
  cbn [gdb_printing progspace csd_pretty_printer pretty_printers console].
  destruct flag; [|reflexivity].
  pose proof (unregister_loop_run [] l true eq_refl) as H. cbn [app] in H.
  rewrite H. cbn [andb]. by destruct (existsb _ l).
Qed.

Lemma register_run (s : Session) :
  _register_csd_printers s =
    if csd_pretty_printer (progspace s) then (None, s)
    else if negb (gdb_printing s)
    then (Some RegAttributeError,
          mkSession (gdb_printing s) (progspace s)
            (console s ++ ["Loading csd pretty-printers"])%list)
    else if existsb (has_name _csd_printer_name) (pretty_printers (progspace s))
    then (Some (RegRuntimeError "pretty-printer already registered: csd_pretty_printer"),
          mkSession (gdb_printing s) (progspace s)
            (console s ++ ["Loading csd pretty-printers"])%list)
    else (None,
          mkSession (gdb_printing s)
            (mkProgspace true
               (CsdPrinter (CSDPrettyPrinter.__init__ _csd_printer_name)
                  :: pretty_printers (progspace s)))
            (console s ++ ["Loading csd pretty-printers"])%list).
Proof.
  unfold _register_csd_printers, register_pretty_printer.
  destruct (csd_pretty_printer (progspace s)); [reflexivity|]. cbn [negb].
  destruct (gdb_printing s); [|reflexivity]. cbn [negb].
  change (getattr_name (CsdPrinter (CSDPrettyPrinter.__init__ _csd_printer_name)) "")
    with _csd_printer_name.
  change (has_semicolon _csd_printer_name) with false. cbv iota.
  by destruct (existsb _ _).
Qed.

Lemma count_named_existsb (n : string) (l : list PrettyPrinter) :
  count_named n l = 0%nat ↔ existsb (has_name n) l = false.
Proof.
  unfold count_named. induction l as [|p l IH]; [done|].
  cbn [List.filter existsb]. destruct (has_name n p); cbn; [split; discriminate|].
  exact IH.
Qed.

Lemma count_named_without_first (n : string) (l : list PrettyPrinter) :
  existsb (has_name n) l = true →
  S (count_named n (without_first n l)) = count_named n l.
Proof.
  unfold count_named. induction l as [|p l IH]; [discriminate|].
  cbn [List.filter existsb without_first].
  destruct (has_name n p) eqn:Hp; cbn [orb length]; [reflexivity|].
  intros H. cbn [List.filter]. rewrite Hp. by apply IH.
Qed.

Lemma without_first_split (n : string) (l : list PrettyPrinter) :
  existsb (has_name n) l = true →
  ∃ pre p post,
    l = (pre ++ p :: post)%list
    ∧ existsb (has_name n) pre = false
    ∧ has_name n p = true
    ∧ without_first n l = (pre ++ post)%list.
Proof.
  induction l as [|q l IH]; [discriminate|].
  cbn [existsb without_first]. destruct (has_name n q) eqn:Hq; cbn [orb].
  - intros _. by exists [], q, l.
  - intros (pre & p & post & -> & Hpre & Hp & ->)%IH.
    exists (q :: pre), p, post. cbn [app existsb]. by rewrite Hq, Hpre.
Qed.

Lemma others_without_first (n : string) (l : list PrettyPrinter) :
  List.filter (λ p, negb (has_name n p)) (without_first n l)
    = List.filter (λ p, negb (has_name n p)) l.
Proof.
  induction l as [|p l IH]; [reflexivity|].
  cbn [without_first List.filter]. destruct (has_name n p) eqn:Hp; cbn [negb];
    [reflexivity|].
  cbn [List.filter]. rewrite Hp. cbn [negb]. by rewrite IH.
Qed.

End Reg.

(** X11: the flag on the program space and the list of printers stay in
    step.  If the flag is set exactly when the list holds one printer named
    [csd_pretty_printer] (and none when it is unset), the same holds after
    either handler.  A clear event does not raise and leaves the flag
    unset.  A load event does nothing when the flag is set; in an
    interpreter into which [gdb.printing] has been imported it does not
    raise and leaves the flag set; in one without it, and with the flag
    unset, it prints its line, raises [AttributeError] and leaves the
    program space as it was. *)
Theorem registration_keeps_consistency (s : Registration.Session) :
  consistent (Registration.progspace s) →
  (consistent (Registration.progspace (snd (Registration._register_csd_printers s)))
   ∧ (Registration.csd_pretty_printer (Registration.progspace s) = true →
        Registration._register_csd_printers s = (None, s))
   ∧ (Registration.gdb_printing s = true →
        fst (Registration._register_csd_printers s) = None
        ∧ Registration.csd_pretty_printer
            (Registration.progspace (snd (Registration._register_csd_printers s)))
          = true)
   ∧ (Registration.gdb_printing s = false →
      Registration.csd_pretty_printer (Registration.progspace s) = false →
        Registration._register_csd_printers s
        = (Some Registration.RegAttributeError,
           Registration.mkSession false (Registration.progspace s)
             (Registration.console s ++ ["Loading csd pretty-printers"])%list)))
  ∧ (fst (Registration._unregister_csd_printers s) = None
     ∧ consistent
         (Registration.progspace (snd (Registration._unregister_csd_printers s)))
     ∧ Registration.csd_pretty_printer
         (Registration.progspace (snd (Registration._unregister_csd_printers s)))
       = false).
Proof.
  unfold consistent. intros Hs. rewrite register_run, unregister_run.
  destruct s as [imported [flag l] out].
  cbn [Registration.gdb_printing Registration.progspace
         Registration.csd_pretty_printer Registration.pretty_printers
         Registration.console] in *.
  destruct flag.
  - assert (existsb (Registration.has_name _csd_printer_name) l = true) as Hex.
    { destruct (existsb _ l) eqn:He; [done|].
      apply count_named_existsb in He. congruence. }
    rewrite Hex.
    cbn [andb fst snd Registration.progspace Registration.csd_pretty_printer
           Registration.pretty_printers].
    pose proof (count_named_without_first _ _ Hex) as Hcount.
    repeat split; try done. lia.
  - pose proof Hs as Hex. apply count_named_existsb in Hex. rewrite Hex.
    destruct imported;
      cbn [negb andb fst snd Registration.progspace
             Registration.csd_pretty_printer Registration.pretty_printers];
      repeat split; try done.
    unfold count_named in *. cbn [List.filter Registration.has_name].
    change (String.eqb (CSDPrettyPrinter.name (CSDPrettyPrinter.__init__ _csd_printer_name))
              _csd_printer_name) with true.
    cbn [length]. by rewrite Hs.
Qed.

Lemma registration_keeps_consistency_witness :
  (fst (Registration._register_csd_printers (fresh_session true)) = None
   ∧ consistent
       (Registration.progspace
          (snd (Registration._register_csd_printers (fresh_session true)))))
  ∧ fst (Registration._register_csd_printers (fresh_session false))
    = Some Registration.RegAttributeError.
Proof.
  destruct (registration_keeps_consistency (fresh_session true) eq_refl)
    as ((Hcons & _ & Hok & _) & _).
  destruct (registration_keeps_consistency (fresh_session false) eq_refl)
    as ((_ & _ & _ & Hmissing) & _).
  split; [split; [exact (proj1 (Hok eq_refl)) | exact Hcons]|].
  exact (f_equal fst (Hmissing eq_refl eq_refl)).
Defined.

(** X12: in an interpreter into which [gdb.printing] has been imported, on
    a program space whose flag is unset and which holds no printer named
    [csd_pretty_printer], a load event puts the dispatcher at the front of
    the list and sets the flag, and a clear event after it gives the
    program space back as it was, flag and list; only the console has the
    line the load printed. *)
Theorem register_then_unregister (s : Registration.Session) :
  Registration.gdb_printing s = true →
  Registration.csd_pretty_printer (Registration.progspace s) = false →
  existsb (Registration.has_name _csd_printer_name)
    (Registration.pretty_printers (Registration.progspace s)) = false →
  Registration._register_csd_printers s
    = (None,
       Registration.mkSession true
         (Registration.mkProgspace true
            (Registration.CsdPrinter (CSDPrettyPrinter.__init__ _csd_printer_name)
               :: Registration.pretty_printers (Registration.progspace s)))
         (Registration.console s ++ ["Loading csd pretty-printers"])%list)
  ∧ Registration._unregister_csd_printers
      (snd (Registration._register_csd_printers s))
    = (None,
       Registration.mkSession true (Registration.progspace s)
         (Registration.console s ++ ["Loading csd pretty-printers"])%list).
Proof.
  intros Himp Hflag Hnone. rewrite register_run, Himp, Hflag, Hnone.
  split; [reflexivity|]. rewrite unregister_run.
  destruct s as [imported [flag l] out]. cbn in Hflag. subst flag. reflexivity.
Qed.

Lemma register_then_unregister_witness :
  Registration._unregister_csd_printers
    (snd (Registration._register_csd_printers (fresh_session true)))
  = (None,
     Registration.mkSession true (Registration.progspace (fresh_session true))
       ["Loading csd pretty-printers"]).
Proof.
  exact (proj2 (register_then_unregister (fresh_session true)
                  eq_refl eq_refl eq_refl)).
Defined.

(** X13: a clear event does not raise, writes nothing and touches at most
    one printer.  With the flag set and a printer named
    [csd_pretty_printer] in the list, the list splits around the first such
    printer, which is the one removed: what was before it and what was
    after it stay, in their order; the flag is cleared.  With the flag set
    and no such printer, or with the flag unset, nothing changes (so a set
    flag stays set). *)
Theorem unregister_removes_only_its_printer (s : Registration.Session) :
  let s' := snd (Registration._unregister_csd_printers s) in
  let named := existsb (Registration.has_name _csd_printer_name)
                 (Registration.pretty_printers (Registration.progspace s)) in
  fst (Registration._unregister_csd_printers s) = None
  ∧ Registration.console s' = Registration.console s
  ∧ (Registration.csd_pretty_printer (Registration.progspace s) && named = true →
       Registration.csd_pretty_printer (Registration.progspace s') = false
       ∧ ∃ pre p post,
           Registration.pretty_printers (Registration.progspace s)
             = (pre ++ p :: post)%list
           ∧ existsb (Registration.has_name _csd_printer_name) pre = false
           ∧ Registration.has_name _csd_printer_name p = true
           ∧ Registration.pretty_printers (Registration.progspace s')
             = (pre ++ post)%list)
  ∧ (Registration.csd_pretty_printer (Registration.progspace s) && named = false →
       s' = s).
Proof.
  intros s' named. subst s' named. rewrite unregister_run.
  destruct (Registration.csd_pretty_printer (Registration.progspace s)
            && existsb _ _) eqn:Hb; cbn [fst snd].
  - cbn [Registration.progspace Registration.pretty_printers
           Registration.console Registration.csd_pretty_printer].
    split; [reflexivity|]. split; [reflexivity|]. split; [|discriminate].
    intros _. split; [reflexivity|].
    apply andb_true_iff in Hb as [_ Hb].
    exact (without_first_split _ _ Hb).
  - repeat split; try done.
Qed.

Lemma unregister_removes_only_its_printer_witness :
  let s := Registration.mkSession false
             (Registration.mkProgspace true
                [Registration.FunctionPrinter;
                 Registration.CsdPrinter (CSDPrettyPrinter.__init__ _csd_printer_name);
                 Registration.NamedPrinter "csd_pretty_printer"]) [] in
  Registration.pretty_printers
    (Registration.progspace (snd (Registration._unregister_csd_printers s)))
  = [Registration.FunctionPrinter; Registration.NamedPrinter "csd_pretty_printer"].
Proof.
  intros s.
  destruct (unregister_removes_only_its_printer s) as (_ & _ & Hfirst & _).
  destruct (Hfirst eq_refl) as (_ & pre & p & post & Hl & Hpre & Hp & ->).
  destruct pre as [|q0 [|q1 pre]]; cbn in Hl, Hpre.
  - injection Hl as <- <-. discriminate Hp.
  - injection Hl as <- <- <-. reflexivity.
  - injection Hl as <- <- Hl. discriminate Hpre.
Defined.

(** X14: in an interpreter into which [gdb.printing] has been imported, a
    load event on a program space whose flag is unset but which already
    holds a printer named [csd_pretty_printer] prints its line, raises
    GDB's "already registered" error and changes neither the list nor the
    flag; so the next load event does the same again. *)
Theorem register_refused_when_name_taken (s : Registration.Session) :
  Registration.gdb_printing s = true →
  Registration.csd_pretty_printer (Registration.progspace s) = false →
  existsb (Registration.has_name _csd_printer_name)
    (Registration.pretty_printers (Registration.progspace s)) = true →
  Registration._register_csd_printers s
    = (Some (Registration.RegRuntimeError
               "pretty-printer already registered: csd_pretty_printer"),
       Registration.mkSession true (Registration.progspace s)
         (Registration.console s ++ ["Loading csd pretty-printers"])%list)
  ∧ fst (Registration._register_csd_printers
           (snd (Registration._register_csd_printers s)))
    = Some (Registration.RegRuntimeError
              "pretty-printer already registered: csd_pretty_printer").
Proof.
  intros Himp Hflag Hnamed. rewrite !register_run, Himp, Hflag, Hnamed.
  cbn [snd fst negb]. split; [reflexivity|].
  cbn [Registration.progspace Registration.gdb_printing].
  by rewrite Hflag, Hnamed.
Qed.

Lemma register_refused_when_name_taken_witness :
  fst (Registration._register_csd_printers
         (Registration.mkSession true
            (Registration.mkProgspace false
               [Registration.NamedPrinter "csd_pretty_printer"]) []))
  = Some (Registration.RegRuntimeError
            "pretty-printer already registered: csd_pretty_printer").
Proof.
  exact (f_equal fst
           (proj1 (register_refused_when_name_taken
                     (Registration.mkSession true
                        (Registration.mkProgspace false
                           [Registration.NamedPrinter "csd_pretty_printer"]) [])
                     eq_refl eq_refl eq_refl))).
Defined.
